(** * Card generator: a shallow embedding of [src/lib/cardGenerator.js]

    The JavaScript module is translated function by function.  Strings are
    sequences of UTF-16 code units, numbers are integers extended with [NaN]
    (every number the module computes is an integer or [NaN]), and the two
    ambient effects, [Math.random] and [new Date()], are made explicit: the
    random source is a stream of draws threaded through the code, the clock
    is a read-only parameter. *)

From Stdlib Require Import ZArith NArith String Ascii Bool Lia List.
From Stdlib Require Import DecimalString DecimalPos DecimalZ.
Import ListNotations.

Local Open Scope Z_scope.

(** ** Strings *)

Module JsString.

(** A code unit of a JavaScript string. *)
Abbreviation char := N (only parsing).

Definition jsstring := list char.

(** A string literal of the source, as code units. *)
Definition str (s : string) : jsstring :=
  map N_of_ascii (list_ascii_of_string s).

Definition char_eqb (a b : char) : bool := N.eqb a b.

Fixpoint string_eqb (s t : jsstring) : bool :=
  match s, t with
  | [], [] => true
  | a :: s', b :: t' => char_eqb a b && string_eqb s' t'
  | _, _ => false
  end.

(** [\d]: the ten ASCII digits. *)
Definition isDigit (c : char) : bool := (N.leb 48 c && N.leb c 57)%bool.

(** The numeric value of a digit character, [Number(c)] for a digit. *)
Definition digitValue (c : char) : Z := Z.of_N c - 48.

(** The character of a digit from 0 to 9. *)
Definition digitChar (d : Z) : char := Z.to_N (d + 48).

(** [\s], which is also the white space [parseInt] skips: the WhiteSpace
    and LineTerminator code points of ECMAScript. *)
Definition isWhiteSpace (c : char) : bool :=
  (N.leb 9 c && N.leb c 13
   || N.eqb c 32 || N.eqb c 160 || N.eqb c 5760
   || N.leb 8192 c && N.leb c 8202
   || N.eqb c 8232 || N.eqb c 8233 || N.eqb c 8239 || N.eqb c 8287
   || N.eqb c 12288 || N.eqb c 65279)%bool.

(** [s.startsWith(p)] *)
Fixpoint startsWith (s p : jsstring) : bool :=
  match p, s with
  | [], _ => true
  | b :: p', a :: s' => char_eqb a b && startsWith s' p'
  | _ :: _, [] => false
  end.

(** [s.substring(0, n)] for a natural [n]. *)
Definition substring0 (s : jsstring) (n : nat) : jsstring := firstn n s.

(** [s.slice(-n)]: the last [n] code units, the whole string when it is
    shorter. *)
Definition sliceLast (s : jsstring) (n : nat) : jsstring :=
  skipn (length s - n) s.

(** [s.padEnd(n, "0")] *)
Definition padEnd0 (s : jsstring) (n : nat) : jsstring :=
  s ++ repeat 48%N (n - length s).

(** [s.padStart(n, "0")] *)
Definition padStart0 (s : jsstring) (n : nat) : jsstring :=
  repeat 48%N (n - length s) ++ s.

(** [s[i]] converted to a string, as [parseInt(s[i])] does: the one
    code unit at [i], or the text of [undefined] out of range. *)
Definition charAt (s : jsstring) (i : nat) : jsstring :=
  match nth_error s i with
  | Some c => [c]
  | None => str "undefined"
  end.

(** [arr.includes(x)] on an array of strings. *)
Definition includes (arr : list jsstring) (x : jsstring) : bool :=
  existsb (string_eqb x) arr.

End JsString.
Import JsString.

(** ** Numbers *)

Module JsNumber.

(** The numbers of the module: integers and [NaN]. *)
Inductive JsNum : Type :=
| NaN
| Num (z : Z).

Definition lift2 (f : Z -> Z -> Z) (a b : JsNum) : JsNum :=
  match a, b with
  | Num x, Num y => Num (f x y)
  | _, _ => NaN
  end.

Definition add := lift2 Z.add.
Definition sub := lift2 Z.sub.
Definition mul := lift2 Z.mul.

(** [a % b]: the remainder has the sign of the dividend; [NaN] when the
    divisor is zero. *)
Definition rem (a b : JsNum) : JsNum :=
  match a, b with
  | Num x, Num y => if y =? 0 then NaN else Num (Z.rem x y)
  | _, _ => NaN
  end.

(** Comparisons are false as soon as one side is [NaN]. *)
Definition ltb (a b : JsNum) : bool :=
  match a, b with
  | Num x, Num y => x <? y
  | _, _ => false
  end.

Definition leb (a b : JsNum) : bool :=
  match a, b with
  | Num x, Num y => x <=? y
  | _, _ => false
  end.

Definition gtb (a b : JsNum) : bool := ltb b a.
Definition geb (a b : JsNum) : bool := leb b a.

Definition isNaN (a : JsNum) : bool :=
  match a with
  | NaN => true
  | Num _ => false
  end.

(** [n.toString()], and the conversion [s + n] applies to a number: the
    decimal digits of an integer, which is what JavaScript prints below
    [10^21]; the module prints digits, months, years and indices. *)
Definition toString (a : JsNum) : jsstring :=
  match a with
  | NaN => str "NaN"
  | Num z => str (NilZero.string_of_int (Z.to_int z))
  end.

(** The value of a character as a digit in the given radix, if it is one. *)
Definition radixValue (radix : Z) (c : char) : option Z :=
  let v :=
    if isDigit c then Some (digitValue c)
    else if (N.leb 97 c && N.leb c 122)%bool then Some (Z.of_N c - 87)
    else if (N.leb 65 c && N.leb c 90)%bool then Some (Z.of_N c - 55)
    else None in
  match v with
  | Some d => if d <? radix then Some d else None
  | None => None
  end.

Fixpoint skipWhiteSpace (s : jsstring) : jsstring :=
  match s with
  | c :: t => if isWhiteSpace c then skipWhiteSpace t else s
  | [] => []
  end.

(** The longest prefix of radix digits, read as a number; [None] when the
    prefix is empty. *)
Fixpoint readDigits (radix : Z) (s : jsstring) (acc : option Z) : option Z :=
  match s with
  | c :: t =>
      match radixValue radix c with
      | Some d =>
          readDigits radix t
            (Some (match acc with Some a => a * radix + d | None => d end))
      | None => acc
      end
  | [] => acc
  end.

(** [parseInt(s)] with no radix argument: leading white space is skipped,
    a sign is read, a [0x] or [0X] prefix selects radix 16, the longest
    prefix of digits is read and the rest ignored.  The integer is exact
    here and rounded to a double in JavaScript; the module only compares
    it with small integers, tests it with [isNaN], and prints it when it
    lies between 1 and 12 or comes from at most two characters. *)
Definition parseInt (s : jsstring) : JsNum :=
  let s := skipWhiteSpace s in
  let '(sign, s) :=
    match s with
    | c :: t =>
        if N.eqb c 45 then (-1, t)
        else if N.eqb c 43 then (1, t)
        else (1, s)
    | [] => (1, s)
    end in
  let '(radix, s) :=
    match s with
    | 48%N :: x :: t =>
        if (N.eqb x 120 || N.eqb x 88)%bool then (16, t) else (10, s)
    | _ => (10, s)
    end in
  match readDigits radix s None with
  | Some z => Num (sign * z)
  | None => NaN
  end.

End JsNumber.
Import JsNumber.

(** ** Luhn algorithm *)

(** The loop of [luhnCheck], [for (i = digits.length - 1; i >= 0; i--)]:
    [k] is [i + 1], the number of digits still to visit. *)
Fixpoint luhnLoop (digits : list Z) (k : nat) (sum : Z) (isEven : bool) : Z :=
  match k with
  | O => sum
  | S i =>
      let digit := nth i digits 0 in
      let digit :=
        if isEven
        then (let digit := digit * 2 in if 9 <? digit then digit - 9 else digit)
        else digit in
      luhnLoop digits i (sum + digit) (negb isEven)
  end.

(** [digits] is [cardNumber.replace(/\D/g, "").split("").map(Number)]:
    only digits are left, so the numbers are integers. *)
Definition luhnCheck (cardNumber : jsstring) : bool :=
  let digits := map digitValue (filter isDigit cardNumber) in
  let sum := luhnLoop digits (length digits) 0 false in
  Z.rem sum 10 =? 0.

(** The loop of [generateValidCardNumber]; the digits are read with
    [parseInt(cardNumber[i])], so the sum is a number that may be [NaN]. *)
Fixpoint checkLoop (cardNumber : jsstring) (k : nat) (sum : JsNum)
    (isEven : bool) : JsNum :=
  match k with
  | O => sum
  | S i =>
      let digit := parseInt (charAt cardNumber i) in
      let digit :=
        if isEven
        then (let digit := mul digit (Num 2) in
              if gtb digit (Num 9) then sub digit (Num 9) else digit)
        else digit in
      checkLoop cardNumber i (add sum digit) (negb isEven)
  end.

Definition generateValidCardNumber (baseNumber : jsstring) : jsstring :=
  let cardNumber := substring0 (padEnd0 baseNumber 15) 15 in
  let sum := checkLoop cardNumber (length cardNumber) (Num 0) true in
  let checkDigit := rem (sub (Num 10) (rem sum (Num 10))) (Num 10) in
  cardNumber ++ toString checkDigit.

(** ** The ambient effects: randomness and the clock *)

Module Random.

(** One result of [Math.random()]: the fraction
    [numer / (numer + slack + 1)], a number of the interval [0, 1). *)
Record Draw : Type := { numer : nat; slack : nat }.

(** The random source: the draws still to come. *)
Definition Rng := nat -> Draw.

(** A computation that consumes draws. *)
Definition Rand (A : Type) := Rng -> A * Rng.

Definition ret {A : Type} (a : A) : Rand A := fun g => (a, g).

Definition bind {A B : Type} (m : Rand A) (k : A -> Rand B) : Rand B :=
  fun g => let (a, g') := m g in k a g'.

Definition mathRandom : Rand Draw :=
  fun g => (g O, fun i => g (S i)).

(** [Math.floor(d * n)] *)
Definition floorTimes (d : Draw) (n : Z) : Z :=
  (Z.of_nat (numer d) * n) / Z.of_nat (numer d + slack d + 1).

(** [Math.floor(Math.random() * n)] *)
Definition floorRandom (n : Z) : Rand Z :=
  bind mathRandom (fun d => ret (floorTimes d n)).

End Random.
Import Random.

Declare Scope rand_scope.
Delimit Scope rand_scope with rand.
Notation "x <- m ;; k" := (bind m (fun x => k))
  (at level 61, m at next level, right associativity) : rand_scope.
Local Open Scope rand_scope.

(** What [new Date()] shows: [getMonth] counts from 0 as in JavaScript. *)
Record Clock : Type := { getFullYear : Z; getMonth : Z }.

(** ** Card brand *)

(** [s[i]]: a one-character string, or [None] for [undefined]. *)
Definition index (s : jsstring) (i : nat) : option jsstring :=
  option_map (fun c => [c]) (nth_error s i).

(** [x === "lit"] for a value that is a string or [undefined]. *)
Definition strictEq (x : option jsstring) (lit : jsstring) : bool :=
  match x with
  | Some s => string_eqb s lit
  | None => false
  end.

Definition detectCardType (cardNumber : jsstring) : jsstring :=
  let firstDigit := index cardNumber 0 in
  let firstTwoDigits := substring0 cardNumber 2 in
  let firstFourDigits := substring0 cardNumber 4 in
  let firstSixDigits := substring0 cardNumber 6 in
  if strictEq firstDigit (str "4") then str "Visa"
  else if (includes [str "51"; str "52"; str "53"; str "54"; str "55"]
             firstTwoDigits
           || geb (parseInt firstFourDigits) (Num 2221)
              && leb (parseInt firstFourDigits) (Num 2720))%bool
  then str "Mastercard"
  else if includes [str "34"; str "37"] firstTwoDigits
  then str "American Express"
  else if (string_eqb firstFourDigits (str "6011")
           || string_eqb firstTwoDigits (str "65")
           || geb (parseInt firstSixDigits) (Num 644000)
              && leb (parseInt firstSixDigits) (Num 649999))%bool
  then str "Discover"
  else if includes [str "30"; str "36"; str "38"] firstTwoDigits
  then str "Diners Club"
  else if string_eqb firstTwoDigits (str "35") then str "JCB"
  else if string_eqb firstFourDigits (str "5019") then str "Dankort"
  else if (string_eqb firstFourDigits (str "4026")
           || string_eqb firstFourDigits (str "4175")
           || string_eqb firstFourDigits (str "4405")
           || string_eqb firstFourDigits (str "4508")
           || string_eqb firstFourDigits (str "4844")
           || string_eqb firstFourDigits (str "4913")
           || string_eqb firstFourDigits (str "4917"))%bool
  then str "Visa Electron"
  else str "Unknown".

(** ** Expiry and CVV generators *)

Module Expiry.
Record t : Type := { month : jsstring; year : jsstring }.
End Expiry.

Definition generateRandomExpiry (now : Clock) : Rand Expiry.t :=
  let currentYear := getFullYear now in
  let currentMonth := getMonth now + 1 in
  r <- floorRandom 10 ;;
  let futureYear := currentYear + r + 1 in
  r <- floorRandom 12 ;;
  let month := r + 1 in
  finalMonth <-
    (if ((futureYear =? currentYear) && (month <=? currentMonth))%bool
     then r <- floorRandom (12 - currentMonth) ;; ret (currentMonth + r + 1)
     else ret month) ;;
  let finalYear := if 12 <? finalMonth then futureYear + 1 else futureYear in
  let adjustedMonth := if 12 <? finalMonth then finalMonth - 12 else finalMonth in
  ret {| Expiry.month := padStart0 (toString (Num adjustedMonth)) 2;
         Expiry.year := sliceLast (toString (Num finalYear)) 2 |}.

(** The loop of [generateCVV], [k] iterations still to run. *)
Fixpoint cvvLoop (k : nat) (cvv : jsstring) : Rand jsstring :=
  match k with
  | O => ret cvv
  | S k' => d <- floorRandom 10 ;; cvvLoop k' (cvv ++ toString (Num d))
  end.

Definition generateCVV (cardType : jsstring) : Rand jsstring :=
  let isAmex := string_eqb cardType (str "American Express") in
  let length := if isAmex then 4%nat else 3%nat in
  cvvLoop length [].

(** ** Wildcards *)

(** The character class [[\*XxQ#_?]] of the source. *)
Definition isWildcard (c : char) : bool :=
  existsb (char_eqb c) (str "*XxQ#_?").

(** [/[\*XxQ#_?]/.test(s)] *)
Definition hasWildcard (s : jsstring) : bool := existsb isWildcard s.

(** [pattern.replace(/[\*XxQ#_?]/g, () => Math.floor(Math.random() * 10))]:
    the callback runs once per match, from left to right, and its number is
    converted to a string. *)
Fixpoint fillWildcards (pattern : jsstring) : Rand jsstring :=
  match pattern with
  | [] => ret []
  | c :: rest =>
      if isWildcard c
      then d <- floorRandom 10 ;;
           rest' <- fillWildcards rest ;;
           ret (toString (Num d) ++ rest')
      else rest' <- fillWildcards rest ;;
           ret (c :: rest')
  end.

(** ** Pattern parser *)

(** [input.replace(/\s+/g, "")] *)
Definition cleanInput (input : jsstring) : jsstring :=
  filter (fun c => negb (isWhiteSpace c)) input.

(** The character class [[\|\/:\-]]. *)
Definition isSeparator (c : char) : bool :=
  existsb (char_eqb c) (str "|/:-").

(** [s.split(/[\|\/:\-]/)]: one segment more than there are separators,
    empty segments included. *)
Fixpoint split (s : jsstring) : list jsstring :=
  match s with
  | [] => [[]]
  | c :: t =>
      if isSeparator c then [] :: split t
      else match split t with
           | seg :: segs => (c :: seg) :: segs
           | [] => [[c]]
           end
  end.

Module Parsed.
Record t : Type :=
  { bin : jsstring;
    month : option jsstring;
    year : option jsstring;
    cvv : option jsstring }.
End Parsed.

(** [x || null] for [x] a string or [undefined]: [None] is [null]. *)
Definition orNull (x : option jsstring) : option jsstring :=
  match x with
  | Some (c :: s) => Some (c :: s)
  | _ => None
  end.

(** [x || ""] *)
Definition orEmpty (x : option jsstring) : jsstring :=
  match x with
  | Some s => s
  | None => []
  end.

Definition parseInputPattern (input : jsstring) : Parsed.t :=
  let cleanedInput := cleanInput input in
  let parts :=
    filter (fun part => (0 <? length part)%nat) (split cleanedInput) in
  {| Parsed.bin := orEmpty (nth_error parts 0);
     Parsed.month := orNull (nth_error parts 1);
     Parsed.year := orNull (nth_error parts 2);
     Parsed.cvv := orNull (nth_error parts 3) |}.

(** ** Card generator *)

Module Card.
Record t : Type :=
  { cardNumber : jsstring;
    month : jsstring;
    year : jsstring;
    cvv : jsstring;
    cardType : jsstring;
    formatted : jsstring }.
End Card.

(** The padding loop, [cardNumber += Math.floor(Math.random() * 10)]
    repeated [k] times. *)
Fixpoint appendRandomDigits (k : nat) (cardNumber : jsstring) : Rand jsstring :=
  match k with
  | O => ret cardNumber
  | S k' =>
      d <- floorRandom 10 ;;
      appendRandomDigits k' (cardNumber ++ toString (Num d))
  end.

(** The target length chosen from the expanded bin. *)
Definition targetLengthOf (cardNumber : jsstring) : nat :=
  if (startsWith cardNumber (str "34")
      || startsWith cardNumber (str "37"))%bool
  then 15%nat
  else if (startsWith cardNumber (str "30")
           || startsWith cardNumber (str "36")
           || startsWith cardNumber (str "38"))%bool
  then 14%nat
  else 16%nat.

(** The expanded bin of a pattern: [fillWildcards(parsed.bin)]. *)
Definition expandedBin (pattern : jsstring) : Rand jsstring :=
  fillWildcards (Parsed.bin (parseInputPattern pattern)).

(** The first part of [generateCreditCard], up to [validCardNumber]; it
    reads [parsed.bin] and nothing else of the parsed pattern. *)
Definition resolveCardNumber (bin : jsstring) : Rand jsstring :=
  cardNumber <- fillWildcards bin ;;
  let targetLength := targetLengthOf cardNumber in
  cardNumber <-
    (if (length cardNumber <? targetLength)%nat
     then let missingDigits := (targetLength - length cardNumber)%nat in
          appendRandomDigits missingDigits cardNumber
     else ret cardNumber) ;;
  let cardNumber := substring0 cardNumber targetLength in
  ret (generateValidCardNumber (substring0 cardNumber (targetLength - 1))).

Section WithClock.

Variable now : Clock.

(** [(currentYear + Math.floor(Math.random() * 10)).toString()] *)
Definition randomNearYear : Rand jsstring :=
  let currentYear := getFullYear now in
  r <- floorRandom 10 ;;
  ret (toString (Num (currentYear + r))).

(** The month of a pattern that gives both month and year. *)
Definition processMonth (month : jsstring) : Rand jsstring :=
  if hasWildcard month
  then processedMonth <- fillWildcards month ;;
       let monthNum := parseInt processedMonth in
       monthNum <-
         (if (isNaN monthNum || ltb monthNum (Num 1)
              || gtb monthNum (Num 12))%bool
          then r <- floorRandom 12 ;; ret (Num (r + 1))
          else ret monthNum) ;;
       ret (padStart0 (toString monthNum) 2)
  else ret month.

(** The year of a pattern that gives both month and year. *)
Definition processYear (year : jsstring) : Rand jsstring :=
  if hasWildcard year
  then processedYear <- fillWildcards year ;;
       if (length processedYear =? 2)%nat
       then let currentYear := getFullYear now in
            let currentCentury := currentYear / 100 * 100 in
            let yearNum := parseInt processedYear in
            let processedYear :=
              if (geb yearNum (Num 0) && leb yearNum (Num 49))%bool
              then toString (add (Num currentCentury) yearNum)
              else toString (add (Num (currentCentury - 100)) yearNum) in
            if ltb (parseInt processedYear) (Num currentYear)
            then randomNearYear
            else ret processedYear
       else if (length processedYear =? 4)%nat
       then let currentYear := getFullYear now in
            let yearNum := parseInt processedYear in
            if (isNaN yearNum || ltb yearNum (Num currentYear)
                || gtb yearNum (Num (currentYear + 20)))%bool
            then randomNearYear
            else ret processedYear
       else randomNearYear
  else ret year.

(** The second part of [generateCreditCard]: month and year. *)
Definition resolveExpiry (parsed : Parsed.t) : Rand Expiry.t :=
  match Parsed.month parsed, Parsed.year parsed with
  | Some ((_ :: _) as parsedMonth), Some ((_ :: _) as parsedYear) =>
      processedMonth <- processMonth parsedMonth ;;
      processedYear <- processYear parsedYear ;;
      ret {| Expiry.month := padStart0 processedMonth 2;
             Expiry.year :=
               if (length processedYear =? 4)%nat
               then sliceLast processedYear 2
               else padStart0 processedYear 2 |}
  | _, _ => generateRandomExpiry now
  end.

(** The third part of [generateCreditCard]: the CVV. *)
Definition resolveCvv (parsed : Parsed.t) (cardType : jsstring)
  : Rand jsstring :=
  match Parsed.cvv parsed with
  | Some ((_ :: _) as processedCvv) =>
      if hasWildcard processedCvv
      then processedCvv <- fillWildcards processedCvv ;;
           let isAmex := string_eqb cardType (str "American Express") in
           let expectedLength := if isAmex then 4%nat else 3%nat in
           if (negb (length processedCvv =? expectedLength)%nat
               || isNaN (parseInt processedCvv))%bool
           then generateCVV cardType
           else ret processedCvv
      else ret processedCvv
  | _ => generateCVV cardType
  end.

Definition generateCreditCard (pattern : jsstring) : Rand Card.t :=
  let parsed := parseInputPattern pattern in
  validCardNumber <- resolveCardNumber (Parsed.bin parsed) ;;
  let cardType := detectCardType validCardNumber in
  expiry <- resolveExpiry parsed ;;
  let month := Expiry.month expiry in
  let year := Expiry.year expiry in
  cvv <- resolveCvv parsed cardType ;;
  ret {| Card.cardNumber := validCardNumber;
         Card.month := month;
         Card.year := year;
         Card.cvv := cvv;
         Card.cardType := cardType;
         Card.formatted :=
           validCardNumber ++ str "|" ++ month ++ str "|" ++ year
             ++ str "|" ++ cvv |}.

End WithClock.

(** ** Batch generation *)

(** The result of a call that may throw. *)
Inductive Outcome (E A : Type) : Type :=
| Returned (a : A)
| Thrown (error : E).
Arguments Returned {E A} a.
Arguments Thrown {E A} error.

Module Batch.

Section Loop.

(** The values that can be thrown, and the generator the loop calls;
    the loop is written once for any generator, so that one that throws
    can be put in the place of [generateCreditCard]. *)
Variable Error : Type.
Variable generate : jsstring -> Rng -> Outcome Error Card.t * Rng.

(** What the loop builds and what it leaves behind: the array [cards],
    the lines written with [console.error], the number of calls made to
    the generator, and the random source. *)
Record State : Type :=
  { cards : list Card.t;
    console : list (jsstring * Error);
    calls : nat;
    rng : Rng }.

(** One iteration, [try { cards.push(generate(pattern)) } catch ...]. *)
Definition iteration (pattern : jsstring) (i : nat) (st : State) : State :=
  let (result, g) := generate pattern (rng st) in
  match result with
  | Returned card =>
      {| cards := cards st ++ [card];
         console := console st;
         calls := S (calls st);
         rng := g |}
  | Thrown error =>
      {| cards := cards st;
         console :=
           console st
             ++ [(str "Error generating card "
                    ++ toString (Num (Z.of_nat i + 1)) ++ str ":",
                  error)];
         calls := S (calls st);
         rng := g |}
  end.

(** [for (let i = 0; i < count; i++)], with [k = count - i]. *)
Fixpoint loop (pattern : jsstring) (k i : nat) (st : State) : State :=
  match k with
  | O => st
  | S k' => loop pattern k' (S i) (iteration pattern i st)
  end.

Definition run (pattern : jsstring) (count : nat) (g : Rng) : State :=
  loop pattern count 0
    {| cards := []; console := []; calls := 0; rng := g |}.

(** The results of the [k] calls the loop makes, in order: each call
    starts from the random source the previous one left. *)
Fixpoint outcomes (pattern : jsstring) (k : nat) (g : Rng)
  : list (Outcome Error Card.t) :=
  match k with
  | O => []
  | S k' =>
      let (result, g') := generate pattern g in
      result :: outcomes pattern k' g'
  end.

End Loop.

Arguments cards {Error} s.
Arguments console {Error} s.
Arguments calls {Error} s.
Arguments rng {Error} s.

End Batch.

(** The records among a list of results, and the errors among them. *)
Fixpoint successes {E A : Type} (l : list (Outcome E A)) : list A :=
  match l with
  | [] => []
  | Returned a :: l' => a :: successes l'
  | Thrown _ :: l' => successes l'
  end.

Fixpoint failures {E A : Type} (l : list (Outcome E A)) : list E :=
  match l with
  | [] => []
  | Returned _ :: l' => failures l'
  | Thrown e :: l' => e :: failures l'
  end.

(** [generateCreditCard] as a call that may throw: it never does. *)
Definition callGenerate (now : Clock) (pattern : jsstring) (g : Rng)
  : Outcome jsstring Card.t * Rng :=
  let (card, g') := generateCreditCard now pattern g in (Returned card, g').

Definition generateMultipleCards (now : Clock) (pattern : jsstring)
    (count : nat) (g : Rng) : list Card.t :=
  Batch.cards (Batch.run jsstring (callGenerate now) pattern count g).

(** ** The specification's reading of the parser and of the wildcard set *)

(** The six wildcard characters the documentation lists:
    [*], [X], [x], [?], [#] and [_]. *)
Definition documentedWildcard (c : char) : bool :=
  existsb (char_eqb c) (str "*Xx?#_").

(** The segments of a text, following the specification's words: the
    maximal runs of characters between separators, empty runs dropped.
    [cur] is the run being read, in reverse. *)
Fixpoint segmentsFrom (cur : jsstring) (s : jsstring) : list jsstring :=
  match s with
  | [] => match cur with [] => [] | _ => [rev cur] end
  | c :: t =>
      if isSeparator c
      then match cur with
           | [] => segmentsFrom [] t
           | _ => rev cur :: segmentsFrom [] t
           end
      else segmentsFrom (c :: cur) t
  end.

(** [parse] as the specification describes it: strip white space, cut
    into non-empty segments, assign them by position; a missing bin is the
    empty text, the other missing fields are absent. *)
Definition parseSpec (rawInput : jsstring) : Parsed.t :=
  let segments :=
    segmentsFrom [] (filter (fun c => negb (isWhiteSpace c)) rawInput) in
  {| Parsed.bin := nth 0 segments [];
     Parsed.month := nth_error segments 1;
     Parsed.year := nth_error segments 2;
     Parsed.cvv := nth_error segments 3 |}.

(** ** Views used by the proofs *)

(** A string of decimal digits. *)
Definition allDigits (s : jsstring) : bool := forallb isDigit s.

(** What one digit adds to the Luhn sum, doubled or not. *)
Definition luhnTerm (isEven : bool) (digit : Z) : Z :=
  if isEven
  then (let digit := digit * 2 in if 9 <? digit then digit - 9 else digit)
  else digit.

(** The check digit [generateValidCardNumber] appends to a string of
    digits, as an integer. *)
Definition checkDigitOf (cardNumber : jsstring) : Z :=
  let digits := map digitValue cardNumber in
  (10 - luhnLoop digits (length digits) 0 true mod 10) mod 10.

(** The names the classifier is known to return. *)
Inductive brandName : jsstring -> Prop :=
| brand_visa : brandName (str "Visa")
| brand_mastercard : brandName (str "Mastercard")
| brand_amex : brandName (str "American Express")
| brand_discover : brandName (str "Discover")
| brand_diners : brandName (str "Diners Club")
| brand_jcb : brandName (str "JCB")
| brand_dankort : brandName (str "Dankort")
| brand_unknown : brandName (str "Unknown").

(** The test of the filter in [parseInputPattern], [part.length > 0]. *)
Definition nonEmpty (part : jsstring) : bool := (0 <? length part)%nat.

(** A segment: a non-empty run of characters without separators. *)
Definition isSegment (seg : jsstring) : Prop :=
  seg <> [] /\ forallb (fun c => negb (isSeparator c)) seg = true.

(** A record is complete when each of its six fields holds a non-empty
    string. *)
Definition populated (card : Card.t) : Prop :=
  Card.cardNumber card <> [] /\ Card.month card <> []
  /\ Card.year card <> [] /\ Card.cvv card <> []
  /\ Card.cardType card <> [] /\ Card.formatted card <> [].

(** ** A sample world, to run the definitions *)

Module Sample.

(** A random source whose draws are [3/10], [0/10], [7/10], ... *)
Definition rng : Rng :=
  fun i => {| numer := (i * 7 + 3) mod 10;
              slack := 9 - (i * 7 + 3) mod 10 |}.

Definition clock : Clock := {| getFullYear := 2026; getMonth := 10 |}.

(** A generator that throws on every call whose first draw is [1/10]. *)
Definition flaky (pattern : jsstring) (g : Rng)
  : Outcome jsstring Card.t * Rng :=
  if (numer (g O) =? 1)%nat
  then (Thrown (str "synthetic failure"), fun i => g (S i))
  else callGenerate clock pattern g.

End Sample.

(** ** The rest of the module and its caller *)

(** [validateCardNumber]: between 13 and 19 digits, and a valid Luhn sum. *)
Definition validateCardNumber (cardNumber : jsstring) : bool :=
  let cleaned := filter isDigit cardNumber in
  if ((length cleaned <? 13) || (19 <? length cleaned))%nat
  then false
  else luhnCheck cleaned.

(** [s.trim()]: white space and line terminators removed at both ends. *)
Definition trim (s : jsstring) : jsstring :=
  rev (skipWhiteSpace (rev (skipWhiteSpace s))).

(** The characters [.] matches in a regular expression without flags:
    all but the four line terminators. *)
Definition isDot (c : char) : bool :=
  negb (N.eqb c 10 || N.eqb c 13 || N.eqb c 8232 || N.eqb c 8233).

(** [s.replace(/(.{4})/g, "$1 ")]: from left to right, four characters
    that [.] matches are copied and followed by a space; where the match
    fails, or fewer than four characters are left, one character is copied
    and the search goes on after it. *)
Fixpoint groupFours (s : jsstring) : jsstring :=
  match s with
  | [] => []
  | a :: t =>
      match t with
      | b :: c :: d :: rest =>
          if (isDot a && isDot b && isDot c && isDot d)%bool
          then a :: b :: c :: d :: 32%N :: groupFours rest
          else a :: groupFours t
      | _ => a :: groupFours t
      end
  end.

Section Exporter.

(** Two built-in functions the exporter calls, taken as they are:
    [String.prototype.toLowerCase] and [JSON.stringify(card, null, 2)]. *)
Variable toLowerCase : jsstring -> jsstring.
Variable jsonStringify : Card.t -> jsstring.

(** [exportCardData(card, format)]; the [switch] compares with [===]. *)
Definition exportCardData (card : Card.t) (format : jsstring) : jsstring :=
  let selector := toLowerCase format in
  if string_eqb selector (str "pipe")
  then Card.cardNumber card ++ str "|" ++ Card.month card ++ str "|"
         ++ Card.year card ++ str "|" ++ Card.cvv card
  else if string_eqb selector (str "json")
  then jsonStringify card
  else if string_eqb selector (str "csv")
  then Card.cardNumber card ++ str "," ++ Card.month card ++ str ","
         ++ Card.year card ++ str "," ++ Card.cvv card ++ str ","
         ++ Card.cardType card
  else if string_eqb selector (str "formatted")
  then trim (groupFours (Card.cardNumber card)) ++ str " "
         ++ Card.month card ++ str "/" ++ Card.year card ++ str " "
         ++ Card.cvv card
  else Card.formatted card.

End Exporter.

(** What [toLowerCase] does to a character of the ASCII range. *)
Definition lowerAscii (c : char) : char :=
  if (N.leb 65 c && N.leb c 90)%bool then (c + 32)%N else c.

Definition isAscii (s : jsstring) : bool := forallb (fun c => N.ltb c 128) s.

(** What is known of [toLowerCase]: on a string of ASCII characters it
    lowers the letters [A] to [Z] and changes nothing else. *)
Definition lowersAscii (toLowerCase : jsstring -> jsstring) : Prop :=
  forall s, isAscii s = true -> toLowerCase s = map lowerAscii s.

(** The character class [[0-9\*XxQ#_?\|\-\/:\s]] of [validatePattern]. *)
Definition isPatternChar (c : char) : bool :=
  (isDigit c || existsb (char_eqb c) (str "*XxQ#_?|-/:") || isWhiteSpace c)%bool.

(** [validatePattern] of the page: its result, and the message it stores
    with [setPatternError]. *)
Definition validatePattern (pattern : jsstring) : bool * jsstring :=
  match trim pattern with
  | [] => (false, str "Pattern cannot be empty")
  | _ :: _ =>
      if (nonEmpty pattern && forallb isPatternChar pattern)%bool
      then (true, [])
      else (false,
            str "Invalid characters in pattern. Use only digits and wildcards: *, X, x, ?, #, _")
  end.

(** ** More views used by the proofs *)

(** The number a string of decimal digits writes. *)
Definition decimalValue (s : jsstring) : Z :=
  fold_left (fun acc c => acc * 10 + digitValue c) s 0.

(** The number of characters of the wildcard class in a string. *)
Definition countWildcards (s : jsstring) : nat :=
  length (filter isWildcard s).

(** A number below 100 written with two digits. *)
Definition twoDigits (k : Z) : jsstring :=
  [digitChar (k / 10); digitChar (k mod 10)].

(** A field of a pattern: not empty, no separator, no white space. *)
Definition cleanField (s : jsstring) : bool :=
  (nonEmpty s
   && forallb (fun c => negb (isSeparator c) && negb (isWhiteSpace c)) s)%bool.

(** The integers [lo], [lo + 1], ..., [lo + n - 1]. *)
Definition zrange (lo n : Z) : list Z :=
  map (fun i => lo + Z.of_nat i) (seq 0 (Z.to_nat n)).

(** A string cut at every occurrence of one character. *)
Fixpoint splitOn (sep : char) (s : jsstring) : list jsstring :=
  match s with
  | [] => [[]]
  | c :: t =>
      if char_eqb c sep then [] :: splitOn sep t
      else match splitOn sep t with
           | seg :: segs => (c :: seg) :: segs
           | [] => [[c]]
           end
  end.

(** The length of a CVV for a card type. *)
Definition cvvLength (cardType : jsstring) : nat :=
  if string_eqb cardType (str "American Express") then 4%nat else 3%nat.

(** The year field [generateCreditCard] makes from a processed year. *)
Definition yearField (processedYear : jsstring) : jsstring :=
  if (length processedYear =? 4)%nat
  then sliceLast processedYear 2
  else padStart0 processedYear 2.

(** * Proofs *)

(** * Facts about strings and numbers *)

Section StringFacts.

Lemma char_eqb_eq (a b : char) : char_eqb a b = true <-> a = b.
Proof. apply N.eqb_eq. Qed.

Lemma string_eqb_eq (s t : jsstring) : string_eqb s t = true <-> s = t.
Proof.
  revert t; induction s as [|a s IH]; intros [|b t]; simpl;
    try (split; [discriminate | discriminate]); [tauto|].
  rewrite andb_true_iff, char_eqb_eq, IH.
  split; [intros [-> ->]; reflexivity | intros [= -> ->]; auto].
Qed.

Lemma isDigit_range (c : char) :
  isDigit c = true <-> (48 <= c <= 57)%N.
Proof.
  unfold isDigit. rewrite andb_true_iff, !N.leb_le. tauto.
Qed.

Lemma digitValue_range (c : char) :
  isDigit c = true -> 0 <= digitValue c <= 9.
Proof. rewrite isDigit_range. unfold digitValue. lia. Qed.

Lemma digitChar_digitValue (c : char) :
  isDigit c = true -> digitChar (digitValue c) = c.
Proof. rewrite isDigit_range. unfold digitChar, digitValue. lia. Qed.

Lemma isDigit_digitChar (d : Z) : 0 <= d <= 9 -> isDigit (digitChar d) = true.
Proof. intros H. apply isDigit_range. unfold digitChar. lia. Qed.

Lemma digitValue_digitChar (d : Z) :
  0 <= d <= 9 -> digitValue (digitChar d) = d.
Proof. intros H. unfold digitChar, digitValue. lia. Qed.

Lemma length_padEnd0 (s : jsstring) (n : nat) :
  length (padEnd0 s n) = Nat.max (length s) n.
Proof. unfold padEnd0. rewrite length_app, repeat_length. lia. Qed.

Lemma length_padStart0 (s : jsstring) (n : nat) :
  length (padStart0 s n) = Nat.max (length s) n.
Proof. unfold padStart0. rewrite length_app, repeat_length. lia. Qed.

Lemma length_sliceLast (s : jsstring) (n : nat) :
  length (sliceLast s n) = Nat.min (length s) n.
Proof. unfold sliceLast. rewrite length_skipn. lia. Qed.

Lemma nonempty_length (s : jsstring) : (0 < length s)%nat -> s <> [].
Proof. destruct s; simpl; [lia | discriminate]. Qed.

End StringFacts.

Section NumberFacts.

Lemma rem_Num (a b : Z) : b <> 0 -> rem (Num a) (Num b) = Num (Z.rem a b).
Proof. intros H. simpl. now destruct (Z.eqb_spec b 0). Qed.

Lemma sub_Num (a b : Z) : sub (Num a) (Num b) = Num (a - b).
Proof. reflexivity. Qed.

Lemma add_Num (a b : Z) : add (Num a) (Num b) = Num (a + b).
Proof. reflexivity. Qed.

(** A one-digit number prints as its digit. *)
Lemma toString_digit (d : Z) :
  0 <= d <= 9 -> toString (Num d) = [digitChar d].
Proof.
  intros H.
  assert (d = 0 \/ d = 1 \/ d = 2 \/ d = 3 \/ d = 4 \/ d = 5 \/ d = 6
          \/ d = 7 \/ d = 8 \/ d = 9) as Hd by lia.
  repeat (destruct Hd as [-> | Hd]; [reflexivity|]). subst d. reflexivity.
Qed.

Lemma string_of_uint_nonempty (u : Decimal.uint) :
  u <> Decimal.Nil -> NilZero.string_of_uint u <> EmptyString.
Proof. destruct u; simpl; congruence. Qed.

Lemma str_nonempty (s : string) : s <> EmptyString -> str s <> [].
Proof. destruct s; simpl; [congruence | discriminate]. Qed.

Lemma toString_nonempty (a : JsNum) : toString a <> [].
Proof.
  destruct a as [|z]; [discriminate|].
  unfold toString. apply str_nonempty.
  destruct z as [|p|p]; simpl; try discriminate.
  apply string_of_uint_nonempty, Unsigned.to_uint_nonnil.
Qed.

(** [parseInt] of a single character. *)
Lemma parseInt_digit (c : char) :
  isDigit c = true -> parseInt [c] = Num (digitValue c).
Proof.
  rewrite isDigit_range. intros H.
  assert (c = 48 \/ c = 49 \/ c = 50 \/ c = 51 \/ c = 52 \/ c = 53
          \/ c = 54 \/ c = 55 \/ c = 56 \/ c = 57)%N as Hc by lia.
  repeat (destruct Hc as [-> | Hc]; [reflexivity|]). subst c. reflexivity.
Qed.

End NumberFacts.

(** * The Luhn sum *)

Section Luhn.

Lemma luhnTerm_range (e : bool) (d : Z) :
  0 <= d <= 9 -> 0 <= luhnTerm e d <= 9.
Proof.
  intros H. unfold luhnTerm. destruct e; [|lia].
  cbv zeta. destruct (9 <? d * 2) eqn:E; lia.
Qed.

Lemma luhnLoop_step (digits : list Z) (i : nat) (sum : Z) (e : bool) :
  luhnLoop digits (S i) sum e
  = luhnLoop digits i (sum + luhnTerm e (nth i digits 0)) (negb e).
Proof. reflexivity. Qed.

(** The running sum is an accumulator. *)
Lemma luhnLoop_acc (digits : list Z) (k : nat) :
  forall sum e, luhnLoop digits k sum e = sum + luhnLoop digits k 0 e.
Proof.
  induction k as [|i IH]; intros sum e.
  - simpl. lia.
  - rewrite !luhnLoop_step, (IH (sum + _)), (IH (0 + _)). lia.
Qed.

(** The loop only reads the digits below its index. *)
Lemma luhnLoop_app (l r : list Z) (k : nat) :
  (k <= length l)%nat ->
  forall sum e, luhnLoop (l ++ r) k sum e = luhnLoop l k sum e.
Proof.
  induction k as [|i IH]; intros Hk sum e; [reflexivity|].
  rewrite !luhnLoop_step, app_nth1 by lia. apply IH. lia.
Qed.

Lemma luhnLoop_snoc (l : list Z) (x sum : Z) (e : bool) :
  luhnLoop (l ++ [x]) (S (length l)) sum e
  = luhnLoop l (length l) (sum + luhnTerm e x) (negb e).
Proof.
  rewrite luhnLoop_step, nth_middle. apply luhnLoop_app. lia.
Qed.

Lemma luhnLoop_nonneg (digits : list Z) (k : nat) :
  Forall (fun d => 0 <= d <= 9) digits ->
  forall sum e, 0 <= sum -> 0 <= luhnLoop digits k sum e.
Proof.
  intros Hd. induction k as [|i IH]; intros sum e Hs; [exact Hs|].
  rewrite luhnLoop_step. apply IH.
  assert (0 <= nth i digits 0 <= 9) as Hn.
  { destruct (Nat.lt_ge_cases i (length digits)) as [Hi|Hi].
    - rewrite Forall_forall in Hd. apply Hd, nth_In, Hi.
    - rewrite nth_overflow by exact Hi. lia. }
  pose proof (luhnTerm_range e _ Hn). lia.
Qed.

Lemma allDigits_Forall (s : jsstring) :
  allDigits s = true <-> Forall (fun c => isDigit c = true) s.
Proof. unfold allDigits. rewrite forallb_forall, Forall_forall. tauto. Qed.

Lemma allDigits_values (s : jsstring) :
  allDigits s = true -> Forall (fun d => 0 <= d <= 9) (map digitValue s).
Proof.
  rewrite allDigits_Forall. intros H. apply Forall_map.
  eapply Forall_impl; [|exact H]. intros c. apply digitValue_range.
Qed.

Lemma allDigits_app (s t : jsstring) :
  allDigits (s ++ t) = (allDigits s && allDigits t)%bool.
Proof. apply forallb_app. Qed.

Lemma allDigits_firstn (s : jsstring) (n : nat) :
  allDigits s = true -> allDigits (firstn n s) = true.
Proof.
  intros H. rewrite <- (firstn_skipn n s), allDigits_app in H.
  apply andb_true_iff in H. apply H.
Qed.

Lemma allDigits_filter (s : jsstring) :
  allDigits s = true -> filter isDigit s = s.
Proof.
  induction s as [|c s IH]; simpl; [reflexivity|].
  rewrite andb_true_iff. intros [-> Hs]. now rewrite IH.
Qed.

Lemma checkDigitOf_range (s : jsstring) : 0 <= checkDigitOf s <= 9.
Proof.
  unfold checkDigitOf. cbv zeta.
  match goal with
  | |- _ <= ?a mod 10 <= _ => pose proof (Z.mod_pos_bound a 10)
  end.
  lia.
Qed.

(** On digits, the loop of the generator computes the Luhn sum. *)
Lemma checkLoop_digits (cardNumber : jsstring) (k : nat) :
  allDigits cardNumber = true -> (k <= length cardNumber)%nat ->
  forall sum e,
    checkLoop cardNumber k (Num sum) e
    = Num (luhnLoop (map digitValue cardNumber) k sum e).
Proof.
  intros Hd. induction k as [|i IH]; intros Hk sum e; [reflexivity|].
  rewrite luhnLoop_step. simpl checkLoop.
  destruct (nth_error cardNumber i) as [c|] eqn:Hc;
    [|apply nth_error_None in Hc; lia].
  assert (isDigit c = true) as Hdc.
  { apply allDigits_Forall in Hd. rewrite Forall_forall in Hd.
    eapply Hd, nth_error_In, Hc. }
  unfold charAt. rewrite Hc, (parseInt_digit c Hdc).
  rewrite (nth_indep _ 0 (digitValue 0%N)) by (rewrite length_map; lia).
  rewrite map_nth, (nth_error_nth _ _ _ Hc).
  replace (if e then _ else Num (digitValue c))
    with (Num (luhnTerm e (digitValue c))).
  - simpl add. apply IH. lia.
  - unfold luhnTerm. destruct e; [|reflexivity].
    simpl. unfold gtb, ltb. destruct (9 <? digitValue c * 2); reflexivity.
Qed.

(** On digits, the generator appends the check digit. *)
Lemma generateValidCardNumber_digits (baseNumber : jsstring) :
  allDigits baseNumber = true ->
  let cardNumber := substring0 (padEnd0 baseNumber 15) 15 in
  allDigits cardNumber = true
  /\ generateValidCardNumber baseNumber
     = cardNumber ++ [digitChar (checkDigitOf cardNumber)].
Proof.
  intros Hd cardNumber.
  assert (allDigits cardNumber = true) as Hc.
  { apply allDigits_firstn. unfold padEnd0. rewrite allDigits_app, Hd.
    apply allDigits_Forall, Forall_forall. intros c Hin.
    apply repeat_spec in Hin. subst c. reflexivity. }
  split; [exact Hc|].
  unfold generateValidCardNumber. fold cardNumber. cbv zeta.
  rewrite (checkLoop_digits _ _ Hc (le_n _)). f_equal.
  pose proof (luhnLoop_nonneg _ (length cardNumber)
                (allDigits_values _ Hc) 0 true (Z.le_refl 0)) as Hs.
  rewrite <- toString_digit by apply checkDigitOf_range.
  unfold checkDigitOf. cbv zeta. rewrite length_map.
  set (sum := luhnLoop _ _ _ _) in *.
  pose proof (Z.mod_pos_bound sum 10).
  rewrite rem_Num, sub_Num, rem_Num by discriminate.
  rewrite (Z.rem_mod_nonneg sum 10) by lia.
  rewrite Z.rem_mod_nonneg by lia. reflexivity.
Qed.

(** The Luhn sum of a string of digits followed by one more digit. *)
Lemma luhnCheck_snoc (s : jsstring) (d : Z) :
  allDigits s = true -> 0 <= d <= 9 ->
  luhnCheck (s ++ [digitChar d])
  = ((d + luhnLoop (map digitValue s) (length s) 0 true) mod 10 =? 0).
Proof.
  intros Hs Hd. unfold luhnCheck. cbv zeta.
  rewrite allDigits_filter
    by (rewrite allDigits_app, Hs; simpl; now rewrite isDigit_digitChar).
  rewrite map_app, length_app, length_map. simpl map. simpl length.
  rewrite Nat.add_1_r, <- (length_map digitValue s), luhnLoop_snoc.
  rewrite digitValue_digitChar by exact Hd.
  rewrite luhnLoop_acc. simpl luhnTerm. simpl negb.
  pose proof (luhnLoop_nonneg _ (length (map digitValue s))
                (allDigits_values _ Hs) 0 true (Z.le_refl 0)) as Hn.
  rewrite Z.rem_mod_nonneg by lia. reflexivity.
Qed.

End Luhn.

Section CheckDigit.

Lemma check_digit_sum (sum : Z) :
  ((10 - sum mod 10) mod 10 + sum) mod 10 = 0.
Proof. Z.div_mod_to_equations. lia. Qed.

Lemma check_digit_unique (sum d : Z) :
  0 <= d <= 9 -> (d + sum) mod 10 = 0 -> (10 - sum mod 10) mod 10 = d.
Proof. intros Hd. Z.div_mod_to_equations. lia. Qed.

Lemma padEnd0_full (s : jsstring) (n : nat) :
  (n <= length s)%nat -> padEnd0 s n = s.
Proof.
  intros H. unfold padEnd0.
  replace (n - length s)%nat with O by lia. apply app_nil_r.
Qed.

(** A string of [n + 1] characters is its first [n] and its last. *)
Lemma split_last (s : jsstring) (n : nat) :
  length s = S n -> exists c, s = firstn n s ++ [c].
Proof.
  intros H. pose proof (firstn_skipn n s) as E.
  assert (length (skipn n s) = 1%nat) as Hl by (rewrite length_skipn; lia).
  destruct (skipn n s) as [|c [|? ?]]; try discriminate.
  exists c. symmetry. exact E.
Qed.

End CheckDigit.

(** The validator accepts what the generator builds from digits. *)
Lemma luhnCheck_generated (d : jsstring) :
  allDigits d = true -> luhnCheck (generateValidCardNumber d) = true.
Proof.
  intros Hd.
  destruct (generateValidCardNumber_digits d Hd) as [Hc ->].
  rewrite luhnCheck_snoc by (exact Hc || apply checkDigitOf_range).
  unfold checkDigitOf. cbv zeta. rewrite length_map.
  rewrite check_digit_sum. reflexivity.
Qed.

(** C3. For every string of decimal digits [d], whatever its length (the
    generator pads or truncates it to fifteen digits), the Luhn validator
    accepts [generateValidCardNumber d]. *)
Theorem generateValidCardNumber_luhnCheck (d : jsstring) :
  allDigits d = true -> luhnCheck (generateValidCardNumber d) = true.
Proof. exact (luhnCheck_generated d). Qed.

Lemma generateValidCardNumber_luhnCheck_witness :
  luhnCheck (generateValidCardNumber (str "411111111111111")) = true.
Proof.
  apply (generateValidCardNumber_luhnCheck (str "411111111111111")).
  reflexivity.
Defined.

(** * The random source *)

Section RandomFacts.

(** [Math.floor(Math.random() * n)] lies in [0, n) for a positive [n]. *)
Lemma floorTimes_range (d : Draw) (n : Z) :
  0 < n -> 0 <= floorTimes d n < n.
Proof.
  intros Hn. unfold floorTimes.
  set (a := Z.of_nat (numer d)).
  replace (Z.of_nat (numer d + slack d + 1)) with (a + Z.of_nat (slack d) + 1)
    by (unfold a; lia).
  assert (0 <= a) by (unfold a; lia).
  split.
  - apply Z.div_pos; nia.
  - apply Z.div_lt_upper_bound; nia.
Qed.

Lemma floorRandom_eq (n : Z) (g : Rng) :
  floorRandom n g = (floorTimes (g O) n, fun i => g (S i)).
Proof. reflexivity. Qed.

Lemma bind_eq {A B : Type} (m : Rand A) (k : A -> Rand B) (g : Rng) :
  bind m k g = k (fst (m g)) (snd (m g)).
Proof. unfold bind. destruct (m g); reflexivity. Qed.

Lemma ret_eq {A : Type} (a : A) (g : Rng) : ret a g = (a, g).
Proof. reflexivity. Qed.

(** The digit a draw yields, as a character. *)
Lemma randomDigit_char (d : Draw) :
  toString (Num (floorTimes d 10)) = [digitChar (floorTimes d 10)]
  /\ isDigit (digitChar (floorTimes d 10)) = true.
Proof.
  pose proof (floorTimes_range d 10 eq_refl) as H.
  split; [apply toString_digit | apply isDigit_digitChar]; lia.
Qed.

End RandomFacts.

(** * Wildcard expansion *)

Section Wildcards.

(** Unfolding [fillWildcards] one character at a time. *)
Lemma fillWildcards_cons (c : char) (rest : jsstring) (g : Rng) :
  fillWildcards (c :: rest) g
  = if isWildcard c
    then let d := floorTimes (g O) 10 in
         let r := fillWildcards rest (fun i => g (S i)) in
         (digitChar d :: fst r, snd r)
    else let r := fillWildcards rest g in (c :: fst r, snd r).
Proof.
  cbn [fillWildcards]. destruct (isWildcard c).
  - rewrite bind_eq, floorRandom_eq. cbn [fst snd].
    rewrite bind_eq, ret_eq.
    destruct (randomDigit_char (g O)) as [-> _]. reflexivity.
  - rewrite bind_eq, ret_eq. reflexivity.
Qed.

(** Expansion keeps the length. *)
Lemma fillWildcards_length (s : jsstring) :
  forall g, length (fst (fillWildcards s g)) = length s.
Proof.
  induction s as [|c s IH]; intros g; [reflexivity|].
  rewrite fillWildcards_cons.
  destruct (isWildcard c); cbv zeta; cbn [fst length]; now rewrite IH.
Qed.

(** A string with no character of the class is returned as it is, and no
    draw is consumed. *)
Lemma fillWildcards_none (s : jsstring) (g : Rng) :
  hasWildcard s = false -> fillWildcards s g = (s, g).
Proof.
  induction s as [|c s IH]; [reflexivity|].
  unfold hasWildcard in *. simpl existsb. rewrite orb_false_iff.
  intros [Hc Hs]. rewrite fillWildcards_cons, Hc. cbv zeta.
  now rewrite (IH Hs).
Qed.

(** Digits and wildcards expand to digits. *)
Lemma fillWildcards_digits (s : jsstring) :
  forallb (fun c => isDigit c || isWildcard c)%bool s = true ->
  forall g, allDigits (fst (fillWildcards s g)) = true.
Proof.
  induction s as [|c s IH]; intros H g; [reflexivity|].
  simpl in H. apply andb_true_iff in H. destruct H as [Hc Hs].
  rewrite fillWildcards_cons.
  destruct (isWildcard c) eqn:Hw; cbv zeta; cbn [fst];
    unfold allDigits; simpl forallb; fold (allDigits (fst (fillWildcards s g)));
    fold (allDigits (fst (fillWildcards s (fun i => g (S i))))).
  - destruct (randomDigit_char (g O)) as [_ ->]. now rewrite IH.
  - rewrite orb_false_r in Hc. now rewrite Hc, IH.
Qed.

End Wildcards.

(** * The card generator, part by part *)

Section Generator.

Variable now : Clock.

(** The record [generateCreditCard] returns, in terms of its three
    parts. *)
Lemma generateCreditCard_eq (pattern : jsstring) (g : Rng) :
  let parsed := parseInputPattern pattern in
  let r1 := resolveCardNumber (Parsed.bin parsed) g in
  let cardType := detectCardType (fst r1) in
  let r2 := resolveExpiry now parsed (snd r1) in
  let r3 := resolveCvv parsed cardType (snd r2) in
  generateCreditCard now pattern g
  = ({| Card.cardNumber := fst r1;
        Card.month := Expiry.month (fst r2);
        Card.year := Expiry.year (fst r2);
        Card.cvv := fst r3;
        Card.cardType := cardType;
        Card.formatted :=
          fst r1 ++ str "|" ++ Expiry.month (fst r2) ++ str "|"
            ++ Expiry.year (fst r2) ++ str "|" ++ fst r3 |},
     snd r3).
Proof.
  cbv zeta. unfold generateCreditCard. cbv zeta.
  rewrite !bind_eq, ret_eq. reflexivity.
Qed.

Lemma appendRandomDigits_digits (k : nat) :
  forall s g, allDigits s = true ->
              allDigits (fst (appendRandomDigits k s g)) = true.
Proof.
  induction k as [|k IH]; intros s g Hs; [exact Hs|].
  cbn [appendRandomDigits]. rewrite bind_eq, floorRandom_eq. cbn [fst snd].
  apply IH. rewrite allDigits_app, Hs.
  destruct (randomDigit_char (g O)) as [-> Hd].
  unfold allDigits. simpl. now rewrite Hd.
Qed.

Lemma generateValidCardNumber_length (b : jsstring) :
  allDigits b = true -> length (generateValidCardNumber b) = 16%nat.
Proof.
  intros Hb. destruct (generateValidCardNumber_digits b Hb) as [_ ->].
  rewrite length_app. unfold substring0.
  rewrite length_firstn, length_padEnd0. cbn [length]. lia.
Qed.

(** The number built from a bin of digits and wildcards is made of
    digits only before the check digit is appended. *)
Lemma resolveCardNumber_eq (bin : jsstring) (g : Rng) :
  forallb (fun c => isDigit c || isWildcard c)%bool bin = true ->
  exists base, allDigits base = true
               /\ fst (resolveCardNumber bin g) = generateValidCardNumber base.
Proof.
  intros Hb. unfold resolveCardNumber. rewrite bind_eq. cbv zeta.
  pose proof (fillWildcards_digits bin Hb g) as Hf.
  set (cardNumber := fst (fillWildcards bin g)) in *.
  set (g1 := snd (fillWildcards bin g)).
  rewrite bind_eq, ret_eq. cbn [fst].
  eexists. split; [|reflexivity].
  unfold substring0. do 2 apply allDigits_firstn.
  destruct (_ <? _)%nat; [|exact Hf].
  apply appendRandomDigits_digits, Hf.
Qed.

End Generator.

(** A bin of digits and wildcards always yields sixteen digits that pass
    the Luhn check, whatever the expanded bin starts with. *)
Lemma generateCreditCard_sixteen_digits (now : Clock) (pattern : jsstring)
    (g : Rng) :
  forallb (fun c => isDigit c || isWildcard c)%bool
    (Parsed.bin (parseInputPattern pattern)) = true ->
  let cardNumber := Card.cardNumber (fst (generateCreditCard now pattern g)) in
  length cardNumber = 16%nat /\ luhnCheck cardNumber = true.
Proof.
  intros Hb. cbv zeta. rewrite generateCreditCard_eq. cbn [fst Card.cardNumber].
  destruct (resolveCardNumber_eq _ g Hb) as (base & Hbase & ->).
  split.
  - now apply generateValidCardNumber_length.
  - now apply luhnCheck_generated.
Qed.

(** C1. At the pattern [340000000000000] the expanded bin starts with 34,
    for which the claim gives length 15, and the card number has sixteen
    characters, with every random source and every clock. *)
Theorem generateCreditCard_amex_sixteen (now : Clock) (g : Rng) :
  startsWith (fst (expandedBin (str "340000000000000") g)) (str "34") = true
  /\ targetLengthOf (fst (expandedBin (str "340000000000000") g)) = 15%nat
  /\ length (Card.cardNumber
               (fst (generateCreditCard now (str "340000000000000") g)))
     = 16%nat.
Proof.
  rewrite generateCreditCard_eq. cbn [fst Card.cardNumber].
  repeat split; vm_compute; reflexivity.
Qed.

(** C2. The letter [Q], which is not one of the six documented wildcard
    characters, is replaced by a digit all the same: the output differs from
    the input. *)
Theorem fillWildcards_replaces_Q (g : Rng) :
  existsb documentedWildcard (str "Q") = false
  /\ allDigits (fst (fillWildcards (str "Q") g)) = true
  /\ fst (fillWildcards (str "Q") g) <> str "Q".
Proof.
  split; [reflexivity|].
  assert (allDigits (fst (fillWildcards (str "Q") g)) = true) as H
    by (apply fillWildcards_digits; reflexivity).
  split; [exact H|].
  intros E. rewrite E in H. discriminate H.
Qed.

(** C6. Recomputing the check digit of a sixteen-digit number that passes
    the Luhn check gives the number back; and the pattern
    [4111111111111111] yields a Visa card whose number is the pattern. *)
Theorem generateValidCardNumber_idempotent :
  (forall n : jsstring,
      allDigits n = true -> length n = 16%nat -> luhnCheck n = true ->
      generateValidCardNumber (substring0 n 15) = n)
  /\ (forall (now : Clock) (g : Rng),
         let card :=
           fst (generateCreditCard now (str "4111111111111111") g) in
         Card.cardType card = str "Visa"
         /\ Card.cardNumber card = str "4111111111111111").
Proof.
  split.
  - intros n Hd Hl Hv.
    destruct (split_last n 15 Hl) as [c Hn].
    unfold substring0. set (cs := firstn 15 n) in *.
    assert (allDigits cs = true /\ isDigit c = true) as [Hcs Hc].
    { rewrite Hn, allDigits_app in Hd. apply andb_true_iff in Hd.
      destruct Hd as [H1 H2]. split; [exact H1|].
      unfold allDigits in H2. simpl in H2. now rewrite andb_true_r in H2. }
    assert (length cs = 15%nat) as Hlen
      by (unfold cs; rewrite length_firstn; lia).
    destruct (generateValidCardNumber_digits cs Hcs) as [_ ->].
    rewrite padEnd0_full by lia.
    assert (firstn 15 cs = cs) as Hf by (apply firstn_all2; lia).
    unfold substring0. rewrite !Hf.
    transitivity (cs ++ [c]); [|symmetry; exact Hn]. f_equal. f_equal.
    rewrite Hn, <- (digitChar_digitValue c Hc) in Hv.
    rewrite luhnCheck_snoc in Hv by (auto using digitValue_range).
    apply Z.eqb_eq in Hv.
    unfold checkDigitOf. cbv zeta. rewrite length_map.
    rewrite (check_digit_unique _ (digitValue c)); auto using digitValue_range.
    now apply digitChar_digitValue.
  - intros now g. cbv zeta. rewrite generateCreditCard_eq.
    cbn [fst Card.cardType Card.cardNumber].
    split; vm_compute; reflexivity.
Qed.

Lemma generateValidCardNumber_idempotent_witness :
  generateValidCardNumber (substring0 (str "4111111111111111") 15)
  = str "4111111111111111".
Proof.
  apply (proj1 generateValidCardNumber_idempotent (str "4111111111111111"));
    reflexivity.
Defined.

(** * Brand classification *)

Section Brand.

(** A four-character prefix that equals a literal starting with [4]
    belongs to a number whose first character is [4]. *)
Lemma prefix4_first (s rest : jsstring) :
  string_eqb (substring0 s 4) (52%N :: rest) = true ->
  strictEq (index s 0) (str "4") = true.
Proof.
  destruct s as [|c s]; [discriminate|].
  unfold substring0. cbn [firstn string_eqb index nth_error option_map strictEq].
  rewrite andb_true_iff. intros [Hc _].
  change (str "4") with [52%N]. cbn [string_eqb]. now rewrite Hc.
Qed.

Lemma detectCardType_brandName (s : jsstring) : brandName (detectCardType s).
Proof.
  unfold detectCardType. cbv zeta.
  destruct (strictEq (index s 0) (str "4")) eqn:H4; [constructor|].
  repeat match goal with
         | |- brandName (if ?b then _ else _) =>
             let E := fresh "E" in destruct b eqn:E; [try constructor|]
         end; try constructor.
  exfalso.
  repeat (apply orb_true_iff in E5; destruct E5 as [E5|E5]);
    apply prefix4_first in E5; congruence.
Qed.

End Brand.

(** C5. [detectCardType] never returns [Visa Electron]: each prefix of that
    rule starts with [4], and a number starting with [4] is a Visa. *)
Theorem detectCardType_never_visa_electron (cardNumber : jsstring) :
  detectCardType cardNumber <> str "Visa Electron".
Proof.
  destruct (detectCardType_brandName cardNumber); discriminate.
Qed.

(** * The pattern parser *)

Section Parser.

(** [split] always returns at least one segment. *)
Lemma split_cons (s : jsstring) : exists seg segs, split s = seg :: segs.
Proof.
  destruct s as [|c t]; simpl; [eauto|].
  destruct (isSeparator c); [eauto|]. destruct (split t); eauto.
Qed.

(** The segments kept by the filter are the runs between separators; the
    run being read, [cur], is a prefix of the first segment. *)
Lemma segmentsFrom_split (s : jsstring) :
  forall cur,
    segmentsFrom cur s
    = filter nonEmpty
        (match split s with
         | seg :: segs => (rev cur ++ seg) :: segs
         | [] => []
         end).
Proof.
  induction s as [|c t IH]; intros cur.
  - simpl. rewrite app_nil_r. unfold nonEmpty.
    destruct cur as [|a cur]; [reflexivity|].
    cbn [rev]. rewrite length_app, Nat.add_comm. reflexivity.
  - cbn [segmentsFrom split]. destruct (isSeparator c).
    + rewrite app_nil_r. cbn [filter].
      assert (segmentsFrom [] t = filter nonEmpty (split t)) as Ht.
      { rewrite IH. destruct (split_cons t) as (seg & segs & ->).
        reflexivity. }
      unfold nonEmpty at 1.
      destruct cur as [|a cur]; [exact Ht|].
      cbn [rev]. rewrite length_app, Nat.add_comm. cbn. now rewrite Ht.
    + rewrite IH. destruct (split_cons t) as (seg & segs & ->).
      cbn [rev]. now rewrite <- app_assoc.
Qed.

Lemma segments_eq (s : jsstring) :
  filter nonEmpty (split s) = segmentsFrom [] s.
Proof.
  rewrite segmentsFrom_split.
  destruct (split_cons s) as (seg & segs & ->). reflexivity.
Qed.

(** A kept segment is a non-empty string: [x || null] keeps it. *)
Lemma orNull_filter (parts : list jsstring) (k : nat) :
  orNull (nth_error (filter nonEmpty parts) k)
  = nth_error (filter nonEmpty parts) k.
Proof.
  destruct (nth_error _ k) as [part|] eqn:E; [|reflexivity].
  apply nth_error_In, filter_In in E. destruct E as [_ E].
  destruct part; [discriminate E | reflexivity].
Qed.

Lemma orEmpty_nth (parts : list jsstring) (k : nat) :
  orEmpty (nth_error parts k) = nth k parts [].
Proof.
  revert parts; induction k as [|k IH]; intros [|p parts]; simpl; auto.
Qed.

Lemma parseInputPattern_parseSpec (input : jsstring) :
  parseInputPattern input = parseSpec input.
Proof.
  unfold parseInputPattern, parseSpec, cleanInput. cbv zeta.
  rewrite <- segments_eq, !orNull_filter, orEmpty_nth. reflexivity.
Qed.

(** The month and the year of a parsed pattern are never empty. *)
Lemma parsed_month_nonempty (input m : jsstring) :
  Parsed.month (parseInputPattern input) = Some m -> m <> [].
Proof.
  unfold parseInputPattern. cbn [Parsed.month].
  destruct (nth_error _ 1) as [[|c s]|]; simpl; congruence.
Qed.

Lemma parsed_year_nonempty (input y : jsstring) :
  Parsed.year (parseInputPattern input) = Some y -> y <> [].
Proof.
  unfold parseInputPattern. cbn [Parsed.year].
  destruct (nth_error _ 2) as [[|c s]|]; simpl; congruence.
Qed.

End Parser.

(** C7. The parser strips white space, cuts the text at the separators
    [|], [/], [:] and [-], drops the empty segments and assigns the others
    by position to bin, month, year and cvv, the missing ones absent (a
    missing bin is the empty string); the pattern
    [4532********|12|26|123] parses to bin [4532********], month [12],
    year [26] and cvv [123]. *)
Theorem parseInputPattern_spec :
  (forall input : jsstring, parseInputPattern input = parseSpec input)
  /\ parseInputPattern (str "4532********|12|26|123")
     = {| Parsed.bin := str "4532********";
          Parsed.month := Some (str "12");
          Parsed.year := Some (str "26");
          Parsed.cvv := Some (str "123") |}.
Proof.
  split; [exact parseInputPattern_parseSpec | reflexivity].
Qed.

Section Segments.

Lemma segmentsFrom_segments (s : jsstring) :
  forall cur,
    forallb (fun c => negb (isSeparator c)) cur = true ->
    Forall isSegment (segmentsFrom cur s).
Proof.
  assert (forall cur,
             cur <> [] ->
             forallb (fun c => negb (isSeparator c)) cur = true ->
             isSegment (rev cur)) as Hrev.
  { intros cur Hne Hc. split.
    - intros E. apply (f_equal (@rev _)) in E.
      rewrite rev_involutive in E. auto.
    - rewrite forallb_forall in *. intros c Hin. apply Hc.
      now apply in_rev. }
  induction s as [|c t IH]; intros cur Hcur; cbn [segmentsFrom].
  - destruct cur as [|a cur]; constructor; [|constructor].
    apply Hrev; [discriminate | exact Hcur].
  - destruct (isSeparator c) eqn:Hc.
    + destruct cur as [|a cur]; [apply IH; reflexivity|].
      constructor; [|apply IH; reflexivity].
      apply Hrev; [discriminate | exact Hcur].
    + apply IH. cbn [forallb]. now rewrite Hc, Hcur.
Qed.

End Segments.

(** * Expiry *)

Section ExpiryFacts.

Variable now : Clock.

Lemma processMonth_literal (m : jsstring) (g : Rng) :
  hasWildcard m = false -> processMonth m g = (m, g).
Proof. intros H. unfold processMonth. now rewrite H. Qed.

Lemma processYear_literal (y : jsstring) (g : Rng) :
  hasWildcard y = false -> processYear now y g = (y, g).
Proof. intros H. unfold processYear. now rewrite H. Qed.

(** With a month or a year missing, the expiry comes from the random
    generator alone. *)
Lemma resolveExpiry_partial (parsed : Parsed.t) :
  Parsed.month parsed = None \/ Parsed.year parsed = None ->
  resolveExpiry now parsed = generateRandomExpiry now.
Proof.
  unfold resolveExpiry.
  intros [-> | ->]; [reflexivity|].
  destruct (Parsed.month parsed) as [[|c m]|]; reflexivity.
Qed.

(** With both given, the month and the year go through [processMonth]
    and [processYear]. *)
Lemma resolveExpiry_both (parsed : Parsed.t) (m y : jsstring) (g : Rng) :
  Parsed.month parsed = Some m -> m <> [] ->
  Parsed.year parsed = Some y -> y <> [] ->
  let r1 := processMonth m g in
  let r2 := processYear now y (snd r1) in
  resolveExpiry now parsed g
  = ({| Expiry.month := padStart0 (fst r1) 2;
        Expiry.year :=
          if (length (fst r2) =? 4)%nat
          then sliceLast (fst r2) 2
          else padStart0 (fst r2) 2 |},
     snd r2).
Proof.
  intros Hm Hmne Hy Hyne. unfold resolveExpiry. rewrite Hm, Hy.
  destruct m as [|a m]; [congruence|]. destruct y as [|b y]; [congruence|].
  cbv zeta. rewrite !bind_eq, ret_eq. reflexivity.
Qed.

End ExpiryFacts.

(** C4. When the pattern has no month or no year, the month and the year
    of the record are those of [generateRandomExpiry], run on the random
    source as the card number left it; the card number reads the bin only,
    so a month given without a year has no effect on the expiry. *)
Theorem generateCreditCard_partial_expiry (now : Clock) (pattern : jsstring)
    (g : Rng) :
  Parsed.month (parseInputPattern pattern) = None
  \/ Parsed.year (parseInputPattern pattern) = None ->
  let bin := Parsed.bin (parseInputPattern pattern) in
  let expiry :=
    fst (generateRandomExpiry now (snd (resolveCardNumber bin g))) in
  let card := fst (generateCreditCard now pattern g) in
  Card.month card = Expiry.month expiry
  /\ Card.year card = Expiry.year expiry.
Proof.
  intros H. cbv zeta. rewrite generateCreditCard_eq.
  cbn [fst Card.month Card.year].
  rewrite (resolveExpiry_partial now _ H). split; reflexivity.
Qed.

Lemma generateCreditCard_partial_expiry_witness :
  let bin := Parsed.bin (parseInputPattern (str "4532|12")) in
  let expiry :=
    fst (generateRandomExpiry Sample.clock
           (snd (resolveCardNumber bin Sample.rng))) in
  let card := fst (generateCreditCard Sample.clock (str "4532|12") Sample.rng) in
  Card.month card = Expiry.month expiry
  /\ Card.year card = Expiry.year expiry.
Proof.
  apply (generateCreditCard_partial_expiry Sample.clock (str "4532|12")
           Sample.rng).
  right. reflexivity.
Defined.

(** A month and a year without wildcards are only padded or cut. *)
Lemma literal_expiry (now : Clock) (pattern : jsstring) (g : Rng)
    (m y : jsstring) :
  Parsed.month (parseInputPattern pattern) = Some m ->
  Parsed.year (parseInputPattern pattern) = Some y ->
  hasWildcard m = false -> hasWildcard y = false ->
  let card := fst (generateCreditCard now pattern g) in
  Card.month card = padStart0 m 2
  /\ Card.year card
     = if (length y =? 4)%nat then sliceLast y 2 else padStart0 y 2.
Proof.
  intros Hm Hy Hwm Hwy. cbv zeta.
  rewrite generateCreditCard_eq. cbn [fst Card.month Card.year].
  rewrite (resolveExpiry_both now _ m y _ Hm
             (parsed_month_nonempty _ _ Hm) Hy
             (parsed_year_nonempty _ _ Hy)).
  cbv zeta. cbn [fst Expiry.month Expiry.year].
  rewrite (processMonth_literal m _ Hwm). cbn [fst snd].
  rewrite (processYear_literal now y _ Hwy). cbn [fst]. split; reflexivity.
Qed.

(** X25. When the pattern gives a month and a year and neither contains a
    character of the class [[\*XxQ#_?]] of the source, the month is the
    month segment padded with zeros to two characters and the year is the
    last two characters of the year segment when it has four, the segment
    padded with zeros to two characters otherwise; nothing checks their
    range, and the month [99] comes out as [99]. *)
Theorem generateCreditCard_literal_expiry :
  (forall (now : Clock) (pattern : jsstring) (g : Rng) (m y : jsstring),
      Parsed.month (parseInputPattern pattern) = Some m ->
      Parsed.year (parseInputPattern pattern) = Some y ->
      hasWildcard m = false -> hasWildcard y = false ->
      let card := fst (generateCreditCard now pattern g) in
      Card.month card = padStart0 m 2
      /\ Card.year card
         = if (length y =? 4)%nat then sliceLast y 2 else padStart0 y 2)
  /\ (forall (now : Clock) (g : Rng),
         Card.month
           (fst (generateCreditCard now (str "4111111111111111|99|26") g))
         = str "99").
Proof.
  split; [exact literal_expiry|].
  intros now g.
  exact (proj1 (literal_expiry now (str "4111111111111111|99|26") g
                  (str "99") (str "26") eq_refl eq_refl eq_refl eq_refl)).
Qed.

Lemma generateCreditCard_literal_expiry_witness :
  let card :=
    fst (generateCreditCard Sample.clock (str "5500000000000000|7|2031|123")
           Sample.rng) in
  Card.month card = padStart0 (str "7") 2
  /\ Card.year card
     = if (length (str "2031") =? 4)%nat
       then sliceLast (str "2031") 2
       else padStart0 (str "2031") 2.
Proof.
  apply (proj1 generateCreditCard_literal_expiry Sample.clock
           (str "5500000000000000|7|2031|123") Sample.rng
           (str "7") (str "2031"));
    reflexivity.
Defined.

(** * Batch generation *)

Section BatchFacts.

Variable Error : Type.
Variable generate : jsstring -> Rng -> Outcome Error Card.t * Rng.
Variable pattern : jsstring.

Lemma successes_length {E A : Type} (l : list (Outcome E A)) :
  (length (successes l) + length (failures l) = length l)%nat.
Proof. induction l as [|[a|e] l IH]; simpl; lia. Qed.

Lemma outcomes_length (k : nat) :
  forall g, length (Batch.outcomes Error generate pattern k g) = k.
Proof.
  induction k as [|k IH]; intros g; [reflexivity|].
  cbn [Batch.outcomes]. destruct (generate pattern g) as [r g'].
  cbn [length]. now rewrite IH.
Qed.

(** What [k] iterations add to the state of the loop. *)
Lemma loop_spec (k : nat) :
  forall i st,
    let st' := Batch.loop Error generate pattern k i st in
    let results := Batch.outcomes Error generate pattern k (Batch.rng st) in
    Batch.calls st' = (Batch.calls st + k)%nat
    /\ Batch.cards st' = Batch.cards st ++ successes results
    /\ map snd (Batch.console st')
       = map snd (Batch.console st) ++ failures results.
Proof.
  induction k as [|k IH]; intros i st; cbv zeta.
  - cbn. rewrite !app_nil_r. auto.
  - cbn [Batch.loop Batch.outcomes].
    destruct (IH (S i) (Batch.iteration Error generate pattern i st))
      as (Hc & Hk & Hl).
    rewrite Hc, Hk, Hl. clear Hc Hk Hl IH.
    unfold Batch.iteration.
    destruct (generate pattern (Batch.rng st)) as [[card|error] g'];
      cbn [Batch.calls Batch.cards Batch.console Batch.rng successes failures].
    + rewrite <- app_assoc. repeat split; try reflexivity; lia.
    + rewrite map_app, <- app_assoc. repeat split; try reflexivity; lia.
Qed.

End BatchFacts.

(** The generator of the source never throws. *)
Lemma callGenerate_outcomes (now : Clock) (pattern : jsstring) (k : nat) :
  forall g, failures (Batch.outcomes jsstring (callGenerate now) pattern k g)
            = [].
Proof.
  induction k as [|k IH]; intros g; [reflexivity|].
  cbn [Batch.outcomes]. unfold callGenerate at 1.
  destruct (generateCreditCard now pattern g) as [card g'].
  cbn [failures]. apply IH.
Qed.

(** The whole loop, for any generator. *)
Lemma run_spec (Error : Type)
    (generate : jsstring -> Rng -> Outcome Error Card.t * Rng)
    (pattern : jsstring) (count : nat) (g : Rng) :
  let st := Batch.run Error generate pattern count g in
  let results := Batch.outcomes Error generate pattern count g in
  Batch.calls st = count
  /\ length results = count
  /\ Batch.cards st = successes results
  /\ map snd (Batch.console st) = failures results
  /\ (length (Batch.cards st) <= count)%nat
  /\ (length (Batch.cards st) + length (Batch.console st) = count)%nat.
Proof.
  cbv zeta. unfold Batch.run.
  destruct (loop_spec Error generate pattern count 0
              {| Batch.cards := []; Batch.console := [];
                 Batch.calls := 0; Batch.rng := g |}) as (Hc & Hk & Hl).
  cbn [Batch.calls Batch.cards Batch.console Batch.rng map app] in Hc, Hk, Hl.
  pose proof (outcomes_length Error generate pattern count g) as Hn.
  pose proof (successes_length
                (Batch.outcomes Error generate pattern count g)) as Hs.
  rewrite <- Hl, length_map, <- Hk, Hn in Hs.
  repeat split; auto; lia.
Qed.

(** C8. Whatever the generator does, the batch loop calls it exactly
    [count] times, returns the records of the calls that returned, in
    order, writes one line to the console for each call that threw, and so
    returns at most [count] records; the loop itself always returns.  With
    [generateCreditCard], which never throws, it returns [count] records. *)
Theorem generateMultipleCards_batch :
  (forall (Error : Type)
          (generate : jsstring -> Rng -> Outcome Error Card.t * Rng)
          (pattern : jsstring) (count : nat) (g : Rng),
      let st := Batch.run Error generate pattern count g in
      let results := Batch.outcomes Error generate pattern count g in
      Batch.calls st = count
      /\ length results = count
      /\ Batch.cards st = successes results
      /\ map snd (Batch.console st) = failures results
      /\ (length (Batch.cards st) <= count)%nat
      /\ (length (Batch.cards st) + length (Batch.console st) = count)%nat)
  /\ (forall (now : Clock) (pattern : jsstring) (count : nat) (g : Rng),
         length (generateMultipleCards now pattern count g) = count).
Proof.
  split; [exact run_spec|].
  intros now pattern count g. unfold generateMultipleCards.
  destruct (run_spec jsstring (callGenerate now) pattern count g)
    as (_ & _ & _ & Hl & _ & Hs).
  rewrite callGenerate_outcomes in Hl.
  apply (f_equal (@length _)) in Hl. rewrite length_map in Hl.
  cbn [length] in Hl. lia.
Qed.

(** * Every field is filled *)

Section Populated.

Variable now : Clock.

Lemma app_nonempty_r (s t : jsstring) : t <> [] -> s ++ t <> [].
Proof. intros Ht E. apply app_eq_nil in E. tauto. Qed.

Lemma generateValidCardNumber_nonempty (b : jsstring) :
  generateValidCardNumber b <> [].
Proof.
  unfold generateValidCardNumber. cbv zeta.
  apply app_nonempty_r, toString_nonempty.
Qed.

Lemma resolveCardNumber_nonempty (bin : jsstring) (g : Rng) :
  fst (resolveCardNumber bin g) <> [].
Proof.
  unfold resolveCardNumber. cbv zeta. rewrite !bind_eq, ret_eq.
  apply generateValidCardNumber_nonempty.
Qed.

Lemma padStart0_nonempty (s : jsstring) : padStart0 s 2 <> [].
Proof. apply nonempty_length. rewrite length_padStart0. lia. Qed.

Lemma sliceLast_nonempty (s : jsstring) : s <> [] -> sliceLast s 2 <> [].
Proof.
  intros H. apply nonempty_length. rewrite length_sliceLast.
  destruct s; [congruence | simpl; lia].
Qed.

Lemma generateRandomExpiry_nonempty (g : Rng) :
  let expiry := fst (generateRandomExpiry now g) in
  Expiry.month expiry <> [] /\ Expiry.year expiry <> [].
Proof.
  cbv zeta. unfold generateRandomExpiry. cbv zeta.
  rewrite !bind_eq, ret_eq. cbn [fst Expiry.month Expiry.year].
  split; [apply padStart0_nonempty|].
  apply sliceLast_nonempty, toString_nonempty.
Qed.

Lemma resolveExpiry_nonempty (parsed : Parsed.t) (g : Rng) :
  let expiry := fst (resolveExpiry now parsed g) in
  Expiry.month expiry <> [] /\ Expiry.year expiry <> [].
Proof.
  cbv zeta. unfold resolveExpiry.
  destruct (Parsed.month parsed) as [[|a m]|];
    try apply generateRandomExpiry_nonempty.
  destruct (Parsed.year parsed) as [[|b y]|];
    try apply generateRandomExpiry_nonempty.
  rewrite !bind_eq, ret_eq. cbn [fst Expiry.month Expiry.year].
  split; [apply padStart0_nonempty|].
  destruct (_ =? 4)%nat eqn:E; [|apply padStart0_nonempty].
  apply Nat.eqb_eq in E. apply sliceLast_nonempty.
  intros E'. rewrite E' in E. discriminate E.
Qed.

Lemma cvvLoop_length (k : nat) :
  forall cvv g,
    (length cvv + k <= length (fst (cvvLoop k cvv g)))%nat.
Proof.
  induction k as [|k IH]; intros cvv g; cbn [cvvLoop].
  - rewrite ret_eq. simpl. lia.
  - rewrite bind_eq, floorRandom_eq. cbn [fst snd].
    etransitivity; [|apply IH]. rewrite length_app.
    destruct (randomDigit_char (g O)) as [-> _]. simpl. lia.
Qed.

Lemma generateCVV_nonempty (cardType : jsstring) (g : Rng) :
  fst (generateCVV cardType g) <> [].
Proof.
  unfold generateCVV. cbv zeta. apply nonempty_length.
  destruct (string_eqb _ _);
    (eapply Nat.lt_le_trans; [|apply cvvLoop_length]); simpl; lia.
Qed.

Lemma resolveCvv_nonempty (parsed : Parsed.t) (cardType : jsstring)
    (g : Rng) :
  fst (resolveCvv parsed cardType g) <> [].
Proof.
  unfold resolveCvv.
  destruct (Parsed.cvv parsed) as [[|c s]|];
    try apply generateCVV_nonempty.
  destruct (hasWildcard (c :: s)); [|rewrite ret_eq; discriminate].
  rewrite bind_eq. cbv zeta.
  destruct (negb _ || _)%bool eqn:E; [apply generateCVV_nonempty|].
  rewrite ret_eq. cbn [fst].
  apply nonempty_length. rewrite fillWildcards_length. simpl. lia.
Qed.

Lemma detectCardType_nonempty (s : jsstring) : detectCardType s <> [].
Proof. destruct (detectCardType_brandName s); discriminate. Qed.

End Populated.

(** C9. For every input string, also one with characters outside the
    accepted set, [generateCreditCard] returns a record, and each of its six
    fields holds a non-empty string. *)
Theorem generateCreditCard_populated (now : Clock) (pattern : jsstring)
    (g : Rng) :
  exists (card : Card.t) (g' : Rng),
    generateCreditCard now pattern g = (card, g') /\ populated card.
Proof.
  rewrite generateCreditCard_eq. cbv zeta.
  eexists _, _. split; [reflexivity|].
  unfold populated.
  cbn [Card.cardNumber Card.month Card.year Card.cvv Card.cardType
       Card.formatted].
  pose proof (resolveExpiry_nonempty now (parseInputPattern pattern)
                (snd (resolveCardNumber
                        (Parsed.bin (parseInputPattern pattern)) g)))
    as [Hm Hy].
  repeat split.
  - apply resolveCardNumber_nonempty.
  - exact Hm.
  - exact Hy.
  - apply resolveCvv_nonempty.
  - apply detectCardType_nonempty.
  - apply app_nonempty_r. discriminate.
Qed.

(** * Worked examples *)

(** Five calls of a generator whose third call throws: four records, one
    line on the console, five calls. *)
Example batch_with_one_failure :
  let st :=
    Batch.run jsstring Sample.flaky (str "4532********|12|26|123") 5
      Sample.rng in
  length (Batch.cards st) = 4%nat
  /\ Batch.console st
     = [(str "Error generating card 3:", str "synthetic failure")]
  /\ Batch.calls st = 5%nat.
Proof. vm_compute. repeat split. Qed.

(** A number with a Visa Electron prefix is classified as Visa. *)
Example visa_electron_prefix_is_visa :
  detectCardType (str "4026000000000002") = str "Visa".
Proof. reflexivity. Qed.

(** A Diners Club prefix: the target length is 14 and the number has
    sixteen digits. *)
Example diners_sixteen :
  targetLengthOf (str "36") = 14%nat
  /\ Card.cardNumber
       (fst (generateCreditCard Sample.clock (str "36") Sample.rng))
     = str "3630741852963009".
Proof. split; reflexivity. Qed.

(** Characters outside the accepted set go through to the record: the
    check digit of a number that is not made of digits is [NaN]. *)
Example unaccepted_characters :
  Card.cardNumber
    (fst (generateCreditCard Sample.clock (str "abc") Sample.rng))
  = str "abc307418529630NaN".
Proof. reflexivity. Qed.

(** A month that holds the letter [Q] is treated as a wildcard month:
    [Q9] becomes [39], out of range, and a random month takes its place. *)
Example month_with_Q :
  Card.month
    (fst (generateCreditCard Sample.clock (str "4111111111111111|Q9|26")
            Sample.rng))
  = str "01".
Proof. reflexivity. Qed.

(** * Further properties *)

(** * More on the Luhn sum *)

Section LuhnErrors.

(** The loop on a concatenation: the right part is summed first, and the
    parity the left part starts with depends on the length of the right
    part. *)
Lemma luhnLoop_split (l r : list Z) :
  forall sum e,
    luhnLoop (l ++ r) (length (l ++ r)) sum e
    = luhnLoop l (length l) (luhnLoop r (length r) sum e)
        (if Nat.even (length r) then e else negb e).
Proof.
  induction r as [|x r IH] using rev_ind; intros sum e.
  - rewrite app_nil_r. reflexivity.
  - rewrite app_assoc, (length_app (l ++ r)), (length_app r).
    cbn [length]. rewrite !Nat.add_1_r, !luhnLoop_snoc, IH.
    rewrite Nat.even_succ, <- Nat.negb_even.
    destruct (Nat.even (length r)); cbn [negb]; [reflexivity|].
    now rewrite negb_involutive.
Qed.

(** The sum as a function of one of its digits. *)
Lemma luhnLoop_at (l r : list Z) :
  exists (K : Z) (p : bool),
    forall x, luhnLoop (l ++ x :: r) (length (l ++ x :: r)) 0 false
              = K + luhnTerm p x.
Proof.
  exists (luhnLoop r (length r) 0 false
          + luhnLoop l (length l) 0 (Nat.even (length r))),
         (negb (Nat.even (length r))).
  intros x. rewrite luhnLoop_split.
  change (x :: r) with ([x] ++ r) at 1.
  change (length (x :: r)) with (S (length r)).
  change (S (length r)) with (length ([x] ++ r)) at 1.
  rewrite luhnLoop_split. cbn [length]. rewrite luhnLoop_step.
  cbn [luhnLoop nth]. rewrite luhnLoop_acc, Nat.even_succ, <- Nat.negb_even.
  destruct (Nat.even (length r)); cbn [negb]; lia.
Qed.

(** Two different digits add different amounts, also modulo ten. *)
Lemma luhnTerm_differs (p : bool) (x y : Z) :
  0 <= x <= 9 -> 0 <= y <= 9 -> x <> y ->
  forall K, (K + luhnTerm p x) mod 10 = 0 -> (K + luhnTerm p y) mod 10 <> 0.
Proof.
  intros Hx Hy Hne K. unfold luhnTerm. destruct p; cbv zeta.
  - destruct (Z.ltb_spec 9 (x * 2)), (Z.ltb_spec 9 (y * 2));
      Z.div_mod_to_equations; lia.
  - Z.div_mod_to_equations; lia.
Qed.

Lemma digits_range (s : jsstring) :
  Forall (fun d => 0 <= d <= 9) (map digitValue (filter isDigit s)).
Proof.
  apply Forall_map, Forall_forall. intros c Hc.
  apply filter_In in Hc. now apply digitValue_range.
Qed.

(** [luhnCheck] as a statement on the sum of the digits. *)
Lemma luhnCheck_sum (s : jsstring) :
  let digits := map digitValue (filter isDigit s) in
  luhnCheck s = (luhnLoop digits (length digits) 0 false mod 10 =? 0).
Proof.
  cbv zeta. unfold luhnCheck. cbv zeta.
  rewrite Z.rem_mod_nonneg; [reflexivity| |lia].
  apply luhnLoop_nonneg; [apply digits_range | lia].
Qed.

Lemma digits_app_cons (s1 s2 : jsstring) (c : char) :
  isDigit c = true ->
  map digitValue (filter isDigit (s1 ++ c :: s2))
  = map digitValue (filter isDigit s1)
      ++ digitValue c :: map digitValue (filter isDigit s2).
Proof.
  intros Hc. rewrite filter_app. cbn [filter]. rewrite Hc, map_app.
  reflexivity.
Qed.

Lemma digitValue_inj (c c' : char) :
  isDigit c = true -> isDigit c' = true ->
  digitValue c = digitValue c' -> c = c'.
Proof. rewrite !isDigit_range. unfold digitValue. lia. Qed.

End LuhnErrors.

(** X1. Replacing one digit of a string that passes the Luhn check by a
    different digit gives a string that fails it. *)
Theorem luhnCheck_single_digit_error (s1 s2 : jsstring) (c c' : char) :
  isDigit c = true -> isDigit c' = true -> c <> c' ->
  luhnCheck (s1 ++ c :: s2) = true ->
  luhnCheck (s1 ++ c' :: s2) = false.
Proof.
  intros Hc Hc' Hne. rewrite !luhnCheck_sum. cbv zeta.
  rewrite !digits_app_cons by assumption.
  destruct (luhnLoop_at (map digitValue (filter isDigit s1))
              (map digitValue (filter isDigit s2))) as (K & p & HK).
  rewrite !HK. intros H. apply Z.eqb_eq in H. apply Z.eqb_neq.
  apply (luhnTerm_differs p (digitValue c)); auto using digitValue_range.
  intros E. apply Hne. now apply digitValue_inj.
Qed.

Lemma luhnCheck_single_digit_error_witness :
  luhnCheck (str "411111" ++ N_of_ascii "1" :: str "111111111") = true
  /\ luhnCheck (str "411111" ++ N_of_ascii "7" :: str "111111111") = false.
Proof.
  split; [reflexivity|].
  apply (luhnCheck_single_digit_error (str "411111") (str "111111111")
           (N_of_ascii "1") (N_of_ascii "7"));
    [reflexivity | reflexivity | discriminate | reflexivity].
Defined.

(** X2. A character that is not a digit has no effect on [luhnCheck] nor
    on [validateCardNumber], wherever it stands. *)
Theorem luhnCheck_ignores_non_digits (s1 s2 : jsstring) (c : char) :
  isDigit c = false ->
  luhnCheck (s1 ++ c :: s2) = luhnCheck (s1 ++ s2)
  /\ validateCardNumber (s1 ++ c :: s2) = validateCardNumber (s1 ++ s2).
Proof.
  intros Hc. unfold validateCardNumber, luhnCheck. cbv zeta.
  rewrite !filter_app. cbn [filter]. rewrite Hc. split; reflexivity.
Qed.

Lemma luhnCheck_ignores_non_digits_witness :
  luhnCheck (str "4111" ++ N_of_ascii " " :: str "111111111111")
  = luhnCheck (str "4111" ++ str "111111111111")
  /\ validateCardNumber (str "4111" ++ N_of_ascii " " :: str "111111111111")
     = validateCardNumber (str "4111" ++ str "111111111111").
Proof.
  apply (luhnCheck_ignores_non_digits (str "4111") (str "111111111111")
           (N_of_ascii " ")).
  reflexivity.
Defined.

(** X3. A string without any digit, the empty string among them, passes
    [luhnCheck], its sum being zero, and is refused by
    [validateCardNumber]. *)
Theorem no_digit_luhnCheck_validateCardNumber (s : jsstring) :
  existsb isDigit s = false ->
  luhnCheck s = true /\ validateCardNumber s = false.
Proof.
  intros H.
  assert (filter isDigit s = []) as E.
  { induction s as [|c s IH]; [reflexivity|].
    cbn [existsb] in H. apply orb_false_iff in H. destruct H as [Hc Hs].
    cbn [filter]. rewrite Hc. now apply IH. }
  unfold validateCardNumber, luhnCheck. cbv zeta. rewrite E.
  split; reflexivity.
Qed.

Lemma no_digit_luhnCheck_validateCardNumber_witness :
  luhnCheck (str "abc") = true /\ validateCardNumber (str "abc") = false.
Proof.
  apply (no_digit_luhnCheck_validateCardNumber (str "abc")). reflexivity.
Defined.

(** X4. For fifteen digits there is exactly one sixteenth digit that
    makes the number pass the Luhn check: the one
    [generateValidCardNumber] appends. *)
Theorem check_digit_is_unique (d : jsstring) (c : char) :
  allDigits d = true -> length d = 15%nat -> isDigit c = true ->
  (luhnCheck (d ++ [c]) = true <-> generateValidCardNumber d = d ++ [c]).
Proof.
  intros Hd Hl Hc.
  destruct (generateValidCardNumber_digits d Hd) as [_ Hg].
  rewrite padEnd0_full in Hg by lia.
  unfold substring0 in Hg. rewrite firstn_all2 in Hg by lia.
  split.
  - intros Hv. rewrite Hg. f_equal. f_equal.
    rewrite <- (digitChar_digitValue c Hc) in Hv.
    rewrite luhnCheck_snoc in Hv by auto using digitValue_range.
    apply Z.eqb_eq in Hv. unfold checkDigitOf. cbv zeta.
    rewrite length_map.
    rewrite (check_digit_unique _ (digitValue c));
      auto using digitValue_range, digitChar_digitValue.
  - intros E. rewrite <- E. now apply luhnCheck_generated.
Qed.

Lemma check_digit_is_unique_witness :
  luhnCheck (str "411111111111111" ++ [N_of_ascii "1"]) = true
  <-> generateValidCardNumber (str "411111111111111")
      = str "411111111111111" ++ [N_of_ascii "1"].
Proof.
  apply (check_digit_is_unique (str "411111111111111") (N_of_ascii "1"));
    reflexivity.
Defined.

(** * More on wildcards *)

Section WildcardPositions.

Lemma countWildcards_cons (c : char) (s : jsstring) :
  countWildcards (c :: s)
  = if isWildcard c then S (countWildcards s) else countWildcards s.
Proof.
  unfold countWildcards. cbn [filter]. now destruct (isWildcard c).
Qed.

(** The draws left after an expansion. *)
Lemma fillWildcards_draws (s : jsstring) :
  forall g i, snd (fillWildcards s g) i = g (countWildcards s + i)%nat.
Proof.
  induction s as [|c s IH]; intros g i; [reflexivity|].
  rewrite fillWildcards_cons, countWildcards_cons.
  destruct (isWildcard c); cbv zeta; cbn [snd]; rewrite IH; reflexivity.
Qed.

(** The character an expansion leaves at each position. *)
Lemma fillWildcards_nth (s : jsstring) :
  forall g i c,
    nth_error s i = Some c ->
    nth_error (fst (fillWildcards s g)) i
    = Some (if isWildcard c
            then digitChar
                   (floorTimes (g (countWildcards (firstn i s))) 10)
            else c).
Proof.
  induction s as [|a s IH]; intros g i c Hi; [destruct i; discriminate|].
  rewrite fillWildcards_cons.
  destruct i as [|i].
  - cbn [nth_error] in Hi. injection Hi as ->.
    destruct (isWildcard c); reflexivity.
  - cbn [nth_error] in Hi. cbn [firstn]. rewrite countWildcards_cons.
    destruct (isWildcard a); cbv zeta; cbn [fst nth_error];
      rewrite (IH _ i c Hi); reflexivity.
Qed.

End WildcardPositions.

(** X5. [fillWildcards] keeps the length of its argument; a character
    outside the class [[\*XxQ#_?]] stays where it is, and the [k]-th
    character of the class, counting from zero, becomes the digit
    [Math.floor(r * 10)] for the [k]-th draw [r]: one draw for each
    wildcard, in order, and no other draw is consumed. *)
Theorem fillWildcards_positions (s : jsstring) (g : Rng) :
  let out := fst (fillWildcards s g) in
  length out = length s
  /\ (forall i c,
         nth_error s i = Some c ->
         let d := floorTimes (g (countWildcards (firstn i s))) 10 in
         0 <= d <= 9
         /\ nth_error out i = Some (if isWildcard c then digitChar d else c))
  /\ (forall i, snd (fillWildcards s g) i = g (countWildcards s + i)%nat).
Proof.
  cbv zeta. split; [apply fillWildcards_length|]. split.
  - intros i c Hi. split.
    + pose proof (floorTimes_range (g (countWildcards (firstn i s))) 10
                    eq_refl). lia.
    + now apply fillWildcards_nth.
  - apply fillWildcards_draws.
Qed.

Lemma fillWildcards_positions_witness :
  nth_error (fst (fillWildcards (str "45X2") Sample.rng)) 3
  = Some (N_of_ascii "2").
Proof.
  apply (proj2
           (proj1 (proj2 (fillWildcards_positions (str "45X2") Sample.rng))
              3%nat (N_of_ascii "2") eq_refl)).
Defined.

(** * More on the parser *)

Section ParserFields.

Lemma isSeparator_not_space (c : char) :
  isSeparator c = true -> isWhiteSpace c = false.
Proof.
  unfold isSeparator. cbn [existsb str map list_ascii_of_string].
  rewrite !orb_true_iff. unfold char_eqb. rewrite !N.eqb_eq.
  intros [E|[E|[E|[E|E]]]]; try discriminate E; rewrite E; reflexivity.
Qed.

(** A property of the characters of the text holds of the characters of
    every segment. *)
Lemma segmentsFrom_forall (P : char -> bool) (s : jsstring) :
  forall cur,
    forallb P cur = true -> forallb P s = true ->
    Forall (fun seg => forallb P seg = true) (segmentsFrom cur s).
Proof.
  assert (forall cur, forallb P cur = true -> forallb P (rev cur) = true)
    as Hrev.
  { intros cur H. rewrite forallb_forall in *. intros c Hc.
    apply H. now apply in_rev. }
  induction s as [|c t IH]; intros cur Hcur Hs; cbn [segmentsFrom].
  - destruct cur; repeat constructor. now apply Hrev.
  - cbn [forallb] in Hs. apply andb_true_iff in Hs. destruct Hs as [Hc Ht].
    destruct (isSeparator c).
    + destruct cur as [|a cur]; [now apply IH|].
      constructor; [now apply Hrev | now apply IH].
    + apply IH; [|exact Ht]. cbn [forallb]. now rewrite Hc, Hcur.
Qed.

Lemma cleanInput_no_space (input : jsstring) :
  forallb (fun c => negb (isWhiteSpace c)) (cleanInput input) = true.
Proof.
  apply forallb_forall. intros c Hc. unfold cleanInput in Hc.
  now apply filter_In in Hc.
Qed.

(** The segments of a cleaned input are clean fields. *)
Lemma segments_clean (input : jsstring) :
  Forall (fun seg => cleanField seg = true)
    (segmentsFrom [] (cleanInput input)).
Proof.
  pose proof (segmentsFrom_segments (cleanInput input) [] eq_refl) as H1.
  pose proof (segmentsFrom_forall _ (cleanInput input) [] eq_refl
                (cleanInput_no_space input)) as H2.
  rewrite Forall_forall in *. intros seg Hin.
  destruct (H1 seg Hin) as [Hne Hsep]. specialize (H2 seg Hin).
  unfold cleanField, nonEmpty. apply andb_true_iff. split.
  - destruct seg; [congruence | reflexivity].
  - rewrite forallb_forall in *. intros c Hc.
    now rewrite (Hsep c Hc), (H2 c Hc).
Qed.

(** A run of characters that are not separators is read into [cur]. *)
Lemma segmentsFrom_run (f rest : jsstring) :
  forallb (fun c => negb (isSeparator c)) f = true ->
  forall cur, segmentsFrom cur (f ++ rest) = segmentsFrom (rev f ++ cur) rest.
Proof.
  induction f as [|c f IH]; intros Hf cur; [reflexivity|].
  cbn [forallb] in Hf. apply andb_true_iff in Hf. destruct Hf as [Hc Hf].
  cbn [app segmentsFrom]. apply negb_true_iff in Hc. rewrite Hc.
  rewrite (IH Hf). cbn [rev]. now rewrite <- app_assoc.
Qed.

Lemma cleanField_parts (f : jsstring) :
  cleanField f = true ->
  f <> []
  /\ forallb (fun c => negb (isSeparator c)) f = true
  /\ forallb (fun c => negb (isWhiteSpace c)) f = true.
Proof.
  unfold cleanField, nonEmpty. rewrite andb_true_iff. intros [Hn Hf].
  split; [destruct f; [discriminate Hn | discriminate]|].
  rewrite !forallb_forall in *.
  split; intros c Hc; specialize (Hf c Hc);
    apply andb_true_iff in Hf; tauto.
Qed.

(** A clean field followed by a separator is one segment. *)
Lemma segmentsFrom_field (f rest : jsstring) (sep : char) :
  cleanField f = true -> isSeparator sep = true ->
  segmentsFrom [] (f ++ sep :: rest) = f :: segmentsFrom [] rest.
Proof.
  intros Hf Hsep. destruct (cleanField_parts f Hf) as (Hne & Hs & _).
  rewrite (segmentsFrom_run f _ Hs). cbn [segmentsFrom]. rewrite Hsep.
  rewrite app_nil_r.
  destruct (rev f) as [|a r] eqn:E.
  - apply (f_equal (@rev _)) in E. rewrite rev_involutive in E.
    now destruct Hne.
  - rewrite <- E, rev_involutive. reflexivity.
Qed.

Lemma segmentsFrom_last (f : jsstring) :
  cleanField f = true -> segmentsFrom [] f = [f].
Proof.
  intros Hf. destruct (cleanField_parts f Hf) as (Hne & Hs & _).
  rewrite <- (app_nil_r f) at 1. rewrite (segmentsFrom_run f _ Hs).
  cbn [segmentsFrom]. rewrite app_nil_r.
  destruct (rev f) as [|a r] eqn:E.
  - apply (f_equal (@rev _)) in E. rewrite rev_involutive in E.
    now destruct Hne.
  - rewrite <- E, rev_involutive. reflexivity.
Qed.

Lemma filter_all {A : Type} (P : A -> bool) (l : list A) :
  forallb P l = true -> filter P l = l.
Proof.
  induction l as [|a l IH]; [reflexivity|].
  cbn [forallb filter]. rewrite andb_true_iff. intros [-> Hl].
  now rewrite IH.
Qed.

End ParserFields.

(** X6. Every field the parser returns is clean: it is not empty and
    holds no separator and no white space; only the bin can be empty, when
    the input has no segment at all. *)
Theorem parseInputPattern_fields_clean (input : jsstring) :
  let parsed := parseInputPattern input in
  (Parsed.bin parsed = [] \/ cleanField (Parsed.bin parsed) = true)
  /\ (forall f,
         Parsed.month parsed = Some f \/ Parsed.year parsed = Some f
         \/ Parsed.cvv parsed = Some f ->
         cleanField f = true).
Proof.
  cbv zeta. rewrite parseInputPattern_parseSpec. unfold parseSpec.
  cbv zeta. fold (cleanInput input).
  pose proof (segments_clean input) as H. rewrite Forall_forall in H.
  cbn [Parsed.bin Parsed.month Parsed.year Parsed.cvv]. split.
  - destruct (segmentsFrom [] (cleanInput input)) as [|seg segs];
      [left; reflexivity|].
    right. apply H. now left.
  - intros f [E|[E|E]]; apply nth_error_In in E; now apply H.
Qed.

Lemma parseInputPattern_fields_clean_witness :
  cleanField (str "12") = true.
Proof.
  apply (proj2 (parseInputPattern_fields_clean (str " 45 32 | 1 2 | 30"))
           (str "12")).
  left. reflexivity.
Defined.

(** The fields are filled from the left. *)
Lemma parsed_positional (input : jsstring) :
  let parsed := parseInputPattern input in
  (Parsed.bin parsed = [] -> Parsed.month parsed = None)
  /\ (Parsed.month parsed = None -> Parsed.year parsed = None)
  /\ (Parsed.year parsed = None -> Parsed.cvv parsed = None).
Proof.
  cbv zeta. rewrite parseInputPattern_parseSpec. unfold parseSpec.
  cbv zeta. fold (cleanInput input).
  pose proof (segments_clean input) as H.
  cbn [Parsed.bin Parsed.month Parsed.year Parsed.cvv].
  repeat split.
  - destruct (segmentsFrom [] (cleanInput input)) as [|seg segs];
      [reflexivity|].
    cbn [nth]. intros ->. apply Forall_inv in H. discriminate H.
  - rewrite !nth_error_None. lia.
  - rewrite !nth_error_None. lia.
Qed.

(** X7. The fields are filled from the left: without a bin there is no
    month, without a month no year, without a year no cvv. *)
Theorem parseInputPattern_positional (input : jsstring) :
  let parsed := parseInputPattern input in
  (Parsed.bin parsed = [] -> Parsed.month parsed = None)
  /\ (Parsed.month parsed = None -> Parsed.year parsed = None)
  /\ (Parsed.year parsed = None -> Parsed.cvv parsed = None).
Proof. exact (parsed_positional input). Qed.

Lemma parseInputPattern_positional_witness :
  Parsed.year (parseInputPattern (str "4532")) = None.
Proof.
  apply (proj1 (proj2 (parseInputPattern_positional (str "4532")))).
  reflexivity.
Defined.

(** X8. Four clean fields joined by any three separators parse back to
    the four fields. *)
Theorem parseInputPattern_join (n m y c : jsstring) (s1 s2 s3 : char) :
  cleanField n = true -> cleanField m = true ->
  cleanField y = true -> cleanField c = true ->
  isSeparator s1 = true -> isSeparator s2 = true -> isSeparator s3 = true ->
  parseInputPattern (n ++ s1 :: m ++ s2 :: y ++ s3 :: c)
  = {| Parsed.bin := n;
       Parsed.month := Some m;
       Parsed.year := Some y;
       Parsed.cvv := Some c |}.
Proof.
  intros Hn Hm Hy Hc H1 H2 H3.
  rewrite parseInputPattern_parseSpec. unfold parseSpec. cbv zeta.
  rewrite filter_all.
  - rewrite (segmentsFrom_field n _ s1 Hn H1),
      (segmentsFrom_field m _ s2 Hm H2), (segmentsFrom_field y _ s3 Hy H3),
      (segmentsFrom_last c Hc).
    reflexivity.
  - destruct (cleanField_parts n Hn) as (_ & _ & Wn).
    destruct (cleanField_parts m Hm) as (_ & _ & Wm).
    destruct (cleanField_parts y Hy) as (_ & _ & Wy).
    destruct (cleanField_parts c Hc) as (_ & _ & Wc).
    rewrite !forallb_app; cbn [forallb]; rewrite !forallb_app;
      cbn [forallb]; rewrite !forallb_app; cbn [forallb].
    rewrite Wn, Wm, Wy, Wc.
    now rewrite (isSeparator_not_space s1 H1), (isSeparator_not_space s2 H2),
      (isSeparator_not_space s3 H3).
Qed.

Lemma parseInputPattern_join_witness :
  parseInputPattern
    (str "4532" ++ N_of_ascii "/" :: str "12" ++ N_of_ascii "-"
       :: str "2030" ++ N_of_ascii ":" :: str "123")
  = {| Parsed.bin := str "4532";
       Parsed.month := Some (str "12");
       Parsed.year := Some (str "2030");
       Parsed.cvv := Some (str "123") |}.
Proof.
  apply (parseInputPattern_join (str "4532") (str "12") (str "2030")
           (str "123") (N_of_ascii "/") (N_of_ascii "-") (N_of_ascii ":"));
    reflexivity.
Defined.

(** * More on the classifier *)

Section BrandPrefix.

Lemma radixValue_range (radix : Z) (c : char) (d : Z) :
  radixValue radix c = Some d -> 0 <= d < radix.
Proof.
  unfold radixValue.
  destruct (isDigit c) eqn:Hd.
  - pose proof (digitValue_range c Hd).
    destruct (Z.ltb_spec (digitValue c) radix); intros [= <-]; lia.
  - destruct (N.leb 97 c && N.leb c 122)%bool eqn:Hl.
    + apply andb_true_iff in Hl. rewrite !N.leb_le in Hl.
      destruct (Z.ltb_spec (Z.of_N c - 87) radix); intros [= <-]; lia.
    + destruct (N.leb 65 c && N.leb c 90)%bool eqn:Hu; [|discriminate].
      apply andb_true_iff in Hu. rewrite !N.leb_le in Hu.
      destruct (Z.ltb_spec (Z.of_N c - 55) radix); intros [= <-]; lia.
Qed.

(** Reading decimal digits after a number [acc] gives a number that
    starts with [acc]: [acc] followed by [k] more digits. *)
Lemma readDigits_prefix (u : jsstring) :
  forall acc, 0 <= acc ->
    exists v k, readDigits 10 u (Some acc) = Some v
                /\ (k <= length u)%nat
                /\ acc * 10 ^ Z.of_nat k <= v < (acc + 1) * 10 ^ Z.of_nat k.
Proof.
  induction u as [|c t IH]; intros acc Hacc.
  - exists acc, O. cbn. repeat split; lia.
  - cbn [readDigits]. destruct (radixValue 10 c) as [d|] eqn:Hc.
    + apply radixValue_range in Hc.
      destruct (IH (acc * 10 + d)) as (v & k & Hv & Hk & Hb); [lia|].
      exists v, (S k). split; [exact Hv|]. split; [cbn [length]; lia|].
      rewrite Nat2Z.inj_succ, Z.pow_succ_r by lia.
      assert (0 < 10 ^ Z.of_nat k) by (apply Z.pow_pos_nonneg; lia).
      nia.
    + exists acc, O. cbn. repeat split; lia.
Qed.

(** [parseInt] of a string that starts with the digit 3. *)
Lemma parseInt_three (u : jsstring) :
  exists v k, parseInt (51%N :: u) = Num v
              /\ (k <= length u)%nat
              /\ 3 * 10 ^ Z.of_nat k <= v < 4 * 10 ^ Z.of_nat k.
Proof.
  destruct (readDigits_prefix u 3 ltac:(lia)) as (v & k & Hv & Hk & Hb).
  exists v, k. split; [|split; [exact Hk | exact Hb]].
  unfold parseInt. cbn [skipWhiteSpace].
  change (isWhiteSpace 51) with false. cbv iota.
  change (N.eqb 51 45) with false. change (N.eqb 51 43) with false.
  cbv iota beta. cbn [readDigits].
  change (radixValue 10 51) with (Some 3). cbv iota beta.
  rewrite Hv. f_equal. lia.
Qed.

(** No number written 3, 3d, 3dd or 3ddd lies in the Mastercard range. *)
Lemma three_not_mastercard (u : jsstring) :
  (length u <= 3)%nat ->
  (geb (parseInt (51%N :: u)) (Num 2221)
   && leb (parseInt (51%N :: u)) (Num 2720))%bool = false.
Proof.
  intros Hu. destruct (parseInt_three u) as (v & k & E & Hk & Hb); rewrite E; clear E.
  unfold geb, leb. apply andb_false_iff.
  assert (k = 0 \/ k = 1 \/ k = 2 \/ k = 3)%nat as Hc by lia.
  destruct Hc as [-> | [-> | [-> | ->]]]; cbn in Hb;
    destruct (Z.leb_spec 2221 v), (Z.leb_spec v 2720); auto; lia.
Qed.

(** Nor does a number of at most six digits that starts with 3 lie in the
    Discover range. *)
Lemma three_not_discover (u : jsstring) :
  (length u <= 5)%nat ->
  (geb (parseInt (51%N :: u)) (Num 644000)
   && leb (parseInt (51%N :: u)) (Num 649999))%bool = false.
Proof.
  intros Hu. destruct (parseInt_three u) as (v & k & E & Hk & Hb); rewrite E; clear E.
  unfold geb, leb. apply andb_false_iff. left.
  apply Z.leb_gt.
  assert (10 ^ Z.of_nat k <= 10 ^ 5) by (apply Z.pow_le_mono_r; lia).
  change (10 ^ 5) with 100000 in *. lia.
Qed.

(** The first two characters and [startsWith]. *)
Lemma prefix2_startsWith (s : jsstring) (x y : char) :
  string_eqb (substring0 s 2) [x; y] = startsWith s [x; y].
Proof.
  destruct s as [|a [|b r]]; cbn; try reflexivity.
  destruct r; reflexivity.
Qed.

(** The classifier on a number that starts with 3. *)
Lemma detectCardType_three (b : char) (rest : jsstring) :
  detectCardType (51%N :: b :: rest)
  = if (N.eqb b 52 || N.eqb b 55)%bool then str "American Express"
    else if (N.eqb b 48 || N.eqb b 54 || N.eqb b 56)%bool
    then str "Diners Club"
    else if N.eqb b 53 then str "JCB"
    else str "Unknown".
Proof.
  unfold detectCardType. cbv zeta.
  change (strictEq (index (51%N :: b :: rest) 0) (str "4")) with false.
  cbv iota.
  change (substring0 (51%N :: b :: rest) 4) with (51%N :: firstn 3 (b :: rest)).
  change (substring0 (51%N :: b :: rest) 6) with (51%N :: firstn 5 (b :: rest)).
  rewrite three_not_mastercard by (rewrite length_firstn; lia).
  rewrite three_not_discover by (rewrite length_firstn; lia).
  change (substring0 (51%N :: b :: rest) 2) with [51%N; b].
  unfold includes, char_eqb. cbn [existsb string_eqb str map
    list_ascii_of_string N_of_ascii N_of_digits]. cbn -[N.eqb firstn].
  unfold char_eqb. cbn -[N.eqb firstn].
  rewrite !andb_true_r, !orb_false_r.
  destruct (N.eqb b 52); [reflexivity|].
  destruct (N.eqb b 55); [reflexivity|].
  destruct (N.eqb b 48); [reflexivity|].
  destruct (N.eqb b 54); [reflexivity|].
  destruct (N.eqb b 56); [reflexivity|].
  destruct (N.eqb b 53); reflexivity.
Qed.

End BrandPrefix.

Section BrandLength.

Lemma startsWith_two (s : jsstring) (x y : char) :
  startsWith s [x; y] = true -> exists rest, s = x :: y :: rest.
Proof.
  destruct s as [|a [|b rest]]; cbn; try discriminate.
  - rewrite andb_false_r. discriminate.
  - unfold char_eqb. rewrite !andb_true_iff, !N.eqb_eq.
    intros [-> [-> _]]. now exists rest.
Qed.

(** The length rule of [generateCreditCard], on the first two
    characters. *)
Lemma targetLengthOf_cases (s : jsstring) :
  targetLengthOf s
  = if includes [str "34"; str "37"] (substring0 s 2) then 15%nat
    else if includes [str "30"; str "36"; str "38"] (substring0 s 2)
    then 14%nat
    else 16%nat.
Proof.
  unfold targetLengthOf, includes. cbn [existsb].
  change (str "34") with [51%N; 52%N]. change (str "37") with [51%N; 55%N].
  change (str "30") with [51%N; 48%N]. change (str "36") with [51%N; 54%N].
  change (str "38") with [51%N; 56%N].
  rewrite !prefix2_startsWith, !orb_false_r, !orb_assoc. reflexivity.
Qed.

Lemma detectCardType_amex_prefix (s : jsstring) :
  detectCardType s = str "American Express" ->
  includes [str "34"; str "37"] (substring0 s 2) = true.
Proof.
  unfold detectCardType. cbv zeta.
  repeat match goal with
         | |- context [if ?b then _ else _] => destruct b eqn:?
         end;
    intros H; try discriminate H; reflexivity.
Qed.

Lemma detectCardType_diners_prefix (s : jsstring) :
  detectCardType s = str "Diners Club" ->
  includes [str "34"; str "37"] (substring0 s 2) = false
  /\ includes [str "30"; str "36"; str "38"] (substring0 s 2) = true.
Proof.
  unfold detectCardType. cbv zeta.
  repeat match goal with
         | |- context [if ?b then _ else _] => destruct b eqn:?
         end;
    intros H; try discriminate H; split; reflexivity.
Qed.

End BrandLength.

(** X9. The brand depends on the first six characters of the number
    only. *)
Theorem detectCardType_first_six (cardNumber : jsstring) :
  detectCardType cardNumber = detectCardType (substring0 cardNumber 6).
Proof.
  unfold detectCardType, substring0. cbv zeta.
  rewrite !firstn_firstn. cbn [Nat.min].
  replace (index (firstn 6 cardNumber) 0) with (index cardNumber 0)
    by (destruct cardNumber; reflexivity).
  reflexivity.
Qed.

(** X10. The length rule of the generator and the classifier agree on
    every string: the target length is 15 exactly when the string is
    classified American Express, and 14 exactly when it is classified
    Diners Club. *)
Theorem targetLengthOf_detectCardType (s : jsstring) :
  (targetLengthOf s = 15%nat <-> detectCardType s = str "American Express")
  /\ (targetLengthOf s = 14%nat <-> detectCardType s = str "Diners Club").
Proof.
  rewrite targetLengthOf_cases. split; split.
  - destruct (includes [str "34"; str "37"] (substring0 s 2)) eqn:E.
    + intros _. unfold includes in E. cbn [existsb] in E.
      change (str "34") with [51%N; 52%N] in E.
      change (str "37") with [51%N; 55%N] in E.
      rewrite !prefix2_startsWith, orb_false_r in E.
      apply orb_true_iff in E.
      destruct E as [E|E]; apply startsWith_two in E;
        destruct E as [rest ->]; rewrite detectCardType_three; reflexivity.
    + destruct (includes [str "30"; str "36"; str "38"] (substring0 s 2));
        intros H; discriminate H.
  - intros H. now rewrite (detectCardType_amex_prefix s H).
  - destruct (includes [str "34"; str "37"] (substring0 s 2)) eqn:E;
      [intros H; discriminate H|].
    destruct (includes [str "30"; str "36"; str "38"] (substring0 s 2))
      eqn:E'; [|intros H; discriminate H].
    intros _. unfold includes in E'. cbn [existsb] in E'.
    change (str "30") with [51%N; 48%N] in E'.
    change (str "36") with [51%N; 54%N] in E'.
    change (str "38") with [51%N; 56%N] in E'.
    rewrite !prefix2_startsWith, orb_false_r in E'.
    apply orb_true_iff in E'. destruct E' as [E'|E'].
    + apply startsWith_two in E'. destruct E' as [rest ->].
      rewrite detectCardType_three. reflexivity.
    + apply orb_true_iff in E'.
      destruct E' as [E'|E']; apply startsWith_two in E';
        destruct E' as [rest ->]; rewrite detectCardType_three; reflexivity.
  - intros H. destruct (detectCardType_diners_prefix s H) as [-> ->].
    reflexivity.
Qed.

Lemma targetLengthOf_detectCardType_witness :
  detectCardType (str "3400000000000000") = str "American Express".
Proof.
  apply (proj1 (proj1 (targetLengthOf_detectCardType
                         (str "3400000000000000")))).
  reflexivity.
Defined.

(** * More on the card number *)

Section CardNumber.

Lemma isDigit_not_wildcard (c : char) :
  isDigit c = true -> isWildcard c = false.
Proof.
  rewrite isDigit_range. intros H.
  assert (c = 48 \/ c = 49 \/ c = 50 \/ c = 51 \/ c = 52 \/ c = 53
          \/ c = 54 \/ c = 55 \/ c = 56 \/ c = 57)%N as Hc by lia.
  repeat (destruct Hc as [-> | Hc]; [reflexivity|]). subst c. reflexivity.
Qed.

Lemma allDigits_no_wildcard (s : jsstring) :
  allDigits s = true -> hasWildcard s = false.
Proof.
  unfold allDigits, hasWildcard. induction s as [|c s IH]; [reflexivity|].
  cbn [forallb existsb]. rewrite andb_true_iff. intros [Hc Hs].
  now rewrite (isDigit_not_wildcard c Hc), IH.
Qed.

(** The characters [validatePattern] accepts, white space and separators
    apart, are digits and wildcards. *)
Lemma isPatternChar_field (c : char) :
  isPatternChar c = true ->
  (negb (isSeparator c) && negb (isWhiteSpace c))%bool = true ->
  (isDigit c || isWildcard c)%bool = true.
Proof.
  intros H Hc. apply andb_true_iff in Hc. destruct Hc as [Hs Hw].
  unfold isPatternChar in H. apply negb_true_iff in Hw.
  rewrite Hw, orb_false_r in H. apply orb_true_iff in H.
  destruct H as [H|H]; [now rewrite H|].
  apply existsb_exists in H. destruct H as (x & Hin & Hx).
  apply N.eqb_eq in Hx. subst x. vm_compute in Hin.
  repeat (destruct Hin as [<-|Hin]; [first [reflexivity | discriminate Hs]|]).
  destruct Hin.
Qed.

Lemma validatePattern_chars (pattern : jsstring) :
  fst (validatePattern pattern) = true ->
  forallb isPatternChar pattern = true.
Proof.
  unfold validatePattern. destruct (trim pattern); [discriminate|].
  destruct (nonEmpty pattern && forallb isPatternChar pattern)%bool eqn:E;
    [|discriminate].
  intros _. apply andb_true_iff in E. apply E.
Qed.

Lemma forallb_filter {A : Type} (P Q : A -> bool) (l : list A) :
  forallb P l = true -> forallb P (filter Q l) = true.
Proof.
  rewrite !forallb_forall. intros H a Ha. apply filter_In in Ha.
  now apply H.
Qed.

(** The fields of an accepted pattern are made of digits and wildcards. *)
Lemma validatePattern_segments (pattern : jsstring) :
  fst (validatePattern pattern) = true ->
  Forall (fun seg => forallb (fun c => isDigit c || isWildcard c)%bool seg
                     = true)
    (segmentsFrom [] (cleanInput pattern)).
Proof.
  intros Hv. apply validatePattern_chars in Hv.
  pose proof (segments_clean pattern) as H1.
  pose proof (segmentsFrom_forall isPatternChar (cleanInput pattern) []
                eq_refl (forallb_filter _ _ _ Hv)) as H2.
  rewrite Forall_forall in *. intros seg Hin.
  specialize (H1 seg Hin). specialize (H2 seg Hin).
  unfold cleanField in H1. apply andb_true_iff in H1. destruct H1 as [_ H1].
  rewrite forallb_forall in *. intros c Hc.
  apply isPatternChar_field; auto.
Qed.

Lemma validatePattern_bin (pattern : jsstring) :
  fst (validatePattern pattern) = true ->
  forallb (fun c => isDigit c || isWildcard c)%bool
    (Parsed.bin (parseInputPattern pattern)) = true.
Proof.
  intros Hv. pose proof (validatePattern_segments pattern Hv) as H.
  rewrite parseInputPattern_parseSpec. unfold parseSpec. cbv zeta.
  fold (cleanInput pattern). cbn [Parsed.bin].
  destruct (segmentsFrom [] (cleanInput pattern)) as [|seg segs];
    [reflexivity|].
  cbn [nth]. now apply Forall_inv in H.
Qed.

Lemma generateValidCardNumber_allDigits (b : jsstring) :
  allDigits b = true -> allDigits (generateValidCardNumber b) = true.
Proof.
  intros Hb. destruct (generateValidCardNumber_digits b Hb) as [Hc ->].
  rewrite allDigits_app, Hc. unfold allDigits. cbn [forallb].
  now rewrite isDigit_digitChar by apply checkDigitOf_range.
Qed.

(** The number of a bin of digits and wildcards: sixteen digits that
    pass both checks. *)
Lemma cardNumber_valid (now : Clock) (pattern : jsstring) (g : Rng) :
  forallb (fun c => isDigit c || isWildcard c)%bool
    (Parsed.bin (parseInputPattern pattern)) = true ->
  let cardNumber := Card.cardNumber (fst (generateCreditCard now pattern g)) in
  length cardNumber = 16%nat /\ allDigits cardNumber = true
  /\ luhnCheck cardNumber = true /\ validateCardNumber cardNumber = true.
Proof.
  intros Hb. cbv zeta.
  destruct (generateCreditCard_sixteen_digits now pattern g Hb) as [Hl Hv].
  assert (allDigits
            (Card.cardNumber (fst (generateCreditCard now pattern g))) = true)
    as Hd.
  { rewrite generateCreditCard_eq. cbn [fst Card.cardNumber].
    destruct (resolveCardNumber_eq _ g Hb) as (base & Hbase & ->).
    now apply generateValidCardNumber_allDigits. }
  repeat split; auto.
  unfold validateCardNumber. cbv zeta.
  rewrite (allDigits_filter _ Hd), Hl. exact Hv.
Qed.

(** Recomputing the check digit of sixteen digits that pass the check. *)
Lemma check_digit_recomputed (n : jsstring) :
  allDigits n = true -> length n = 16%nat -> luhnCheck n = true ->
  generateValidCardNumber (substring0 n 15) = n.
Proof.
  intros Hd Hl Hv.
  destruct (split_last n 15 Hl) as [c Hn].
  assert (allDigits (firstn 15 n) = true) as Hcs by now apply allDigits_firstn.
  assert (isDigit c = true) as Hc.
  { rewrite Hn, allDigits_app in Hd. apply andb_true_iff in Hd.
    destruct Hd as [_ H2]. unfold allDigits in H2. cbn in H2.
    now rewrite andb_true_r in H2. }
  assert (length (firstn 15 n) = 15%nat) as Hlen
    by (rewrite length_firstn; lia).
  unfold substring0.
  destruct (generateValidCardNumber_digits _ Hcs) as [_ ->].
  rewrite padEnd0_full by lia.
  assert (firstn 15 (firstn 15 n) = firstn 15 n) as Hf
    by (apply firstn_all2; lia).
  unfold substring0. rewrite !Hf.
  transitivity (firstn 15 n ++ [c]); [|symmetry; exact Hn]. f_equal. f_equal.
  rewrite Hn, <- (digitChar_digitValue c Hc) in Hv.
  rewrite luhnCheck_snoc in Hv by (auto using digitValue_range).
  apply Z.eqb_eq in Hv.
  unfold checkDigitOf. cbv zeta. rewrite length_map.
  rewrite (check_digit_unique _ (digitValue c)); auto using digitValue_range.
  now apply digitChar_digitValue.
Qed.

(** The padding loop appends to the number it is given. *)
Lemma appendRandomDigits_prefix (k : nat) :
  forall s g, exists tail, fst (appendRandomDigits k s g) = s ++ tail.
Proof.
  induction k as [|k IH]; intros s g.
  - exists []. cbn. now rewrite app_nil_r.
  - cbn [appendRandomDigits]. rewrite bind_eq, floorRandom_eq. cbn [fst snd].
    destruct (IH (s ++ toString (Num (floorTimes (g O) 10)))
                (fun i => g (S i))) as [tail ->].
    rewrite <- app_assoc. eauto.
Qed.

Lemma nth_error_firstn_lt {A : Type} (l : list A) (n i : nat) :
  (i < n)%nat -> nth_error (firstn n l) i = nth_error l i.
Proof.
  revert n i; induction l as [|a l IH]; intros n i Hi.
  - now rewrite firstn_nil.
  - destruct n as [|n]; [lia|]. destruct i as [|i]; [reflexivity|].
    cbn [firstn nth_error]. apply IH. lia.
Qed.

(** The first fifteen characters of a base are kept by
    [generateValidCardNumber]. *)
Lemma generateValidCardNumber_nth (b : jsstring) (i : nat) (c : char) :
  nth_error b i = Some c -> (i < 15)%nat ->
  nth_error (generateValidCardNumber b) i = Some c.
Proof.
  intros Hc Hi. unfold generateValidCardNumber. cbv zeta.
  assert (nth_error (substring0 (padEnd0 b 15) 15) i = Some c) as H.
  { unfold substring0, padEnd0. rewrite nth_error_firstn_lt by exact Hi.
    rewrite nth_error_app1; [exact Hc|].
    apply nth_error_Some. congruence. }
  rewrite nth_error_app1; [exact H|]. apply nth_error_Some. congruence.
Qed.

End CardNumber.

(** X11. A pattern the page accepts with [validatePattern] gives, with
    every random source and clock, a card number of sixteen digits that
    passes [luhnCheck] and [validateCardNumber]. *)
Theorem validated_pattern_valid_number (now : Clock) (pattern : jsstring)
    (g : Rng) :
  fst (validatePattern pattern) = true ->
  let cardNumber := Card.cardNumber (fst (generateCreditCard now pattern g)) in
  length cardNumber = 16%nat /\ allDigits cardNumber = true
  /\ luhnCheck cardNumber = true /\ validateCardNumber cardNumber = true.
Proof.
  intros Hv. apply cardNumber_valid. now apply validatePattern_bin.
Qed.

Lemma validated_pattern_valid_number_witness :
  let cardNumber :=
    Card.cardNumber
      (fst (generateCreditCard Sample.clock (str "37XX 12|XX/2030")
              Sample.rng)) in
  length cardNumber = 16%nat /\ allDigits cardNumber = true
  /\ luhnCheck cardNumber = true /\ validateCardNumber cardNumber = true.
Proof.
  apply (validated_pattern_valid_number Sample.clock (str "37XX 12|XX/2030")
           Sample.rng).
  reflexivity.
Defined.

(** X12. The characters of the bin that are not wildcards are kept in
    place in the card number, up to the position before the last of the
    target length: only wildcards, the padding and the check digit are
    chosen by the generator. *)
Theorem generateCreditCard_keeps_bin (now : Clock) (pattern : jsstring)
    (g : Rng) (i : nat) (c : char) :
  nth_error (Parsed.bin (parseInputPattern pattern)) i = Some c ->
  isWildcard c = false ->
  (i < targetLengthOf (fst (expandedBin pattern g)) - 1)%nat ->
  nth_error (Card.cardNumber (fst (generateCreditCard now pattern g))) i
  = Some c.
Proof.
  intros Hc Hw Hi. rewrite generateCreditCard_eq. cbn [fst Card.cardNumber].
  unfold expandedBin in Hi. unfold resolveCardNumber.
  set (bin := Parsed.bin (parseInputPattern pattern)) in *.
  rewrite bind_eq. cbv zeta.
  pose proof (fillWildcards_nth bin g i c Hc) as He. rewrite Hw in He.
  set (e := fst (fillWildcards bin g)) in *.
  set (T := targetLengthOf e) in *.
  rewrite bind_eq, ret_eq. cbn [fst].
  assert (T <= 16)%nat as HT.
  { unfold T, targetLengthOf. repeat destruct (_ || _)%bool; lia. }
  apply generateValidCardNumber_nth; [|lia].
  unfold substring0. rewrite !nth_error_firstn_lt by lia.
  destruct (length e <? T)%nat; [|exact He].
  destruct (appendRandomDigits_prefix (T - length e) e
              (snd (fillWildcards bin g))) as [tail ->].
  rewrite nth_error_app1; [exact He|]. apply nth_error_Some. congruence.
Qed.

Lemma generateCreditCard_keeps_bin_witness :
  nth_error
    (Card.cardNumber
       (fst (generateCreditCard Sample.clock (str "45X2|12|30") Sample.rng)))
    3
  = Some (N_of_ascii "2").
Proof.
  apply (generateCreditCard_keeps_bin Sample.clock (str "45X2|12|30")
           Sample.rng 3 (N_of_ascii "2"));
    [reflexivity | reflexivity | vm_compute; lia].
Defined.

(** X13. A bin of sixteen digits that passes the Luhn check and does not
    start with 30, 34, 36, 37 or 38 comes back unchanged as the card
    number. *)
Theorem generateCreditCard_fixed_point (now : Clock) (pattern : jsstring)
    (g : Rng) :
  let n := Parsed.bin (parseInputPattern pattern) in
  allDigits n = true -> length n = 16%nat -> luhnCheck n = true ->
  targetLengthOf n = 16%nat ->
  Card.cardNumber (fst (generateCreditCard now pattern g)) = n.
Proof.
  intros n Hd Hl Hv HT. rewrite generateCreditCard_eq.
  cbn [fst Card.cardNumber]. fold n. unfold resolveCardNumber.
  rewrite bind_eq, (fillWildcards_none n g (allDigits_no_wildcard n Hd)).
  cbn [fst snd]. rewrite HT, Hl, Nat.ltb_irrefl, bind_eq, ret_eq.
  cbn [fst]. unfold substring0 at 2.
  rewrite (firstn_all2 n) by lia.
  now apply check_digit_recomputed.
Qed.

Lemma generateCreditCard_fixed_point_witness :
  Card.cardNumber
    (fst (generateCreditCard Sample.clock (str "5500000000000004|01|30")
            Sample.rng))
  = Parsed.bin (parseInputPattern (str "5500000000000004|01|30")).
Proof.
  apply (generateCreditCard_fixed_point Sample.clock
           (str "5500000000000004|01|30") Sample.rng);
    reflexivity.
Defined.

(** * More on the CVV and the expiry *)

Section CvvExpiry.

Variable now : Clock.

(** The CVV loop appends [k] digits. *)
Lemma cvvLoop_digits (k : nat) :
  forall cvv g,
    allDigits cvv = true ->
    length (fst (cvvLoop k cvv g)) = (length cvv + k)%nat
    /\ allDigits (fst (cvvLoop k cvv g)) = true.
Proof.
  induction k as [|k IH]; intros cvv g Hd; cbn [cvvLoop].
  - rewrite ret_eq. cbn [fst]. split; [lia | exact Hd].
  - rewrite bind_eq, floorRandom_eq. cbn [fst snd].
    destruct (randomDigit_char (g O)) as [E Hdig]. rewrite E.
    destruct (IH (cvv ++ [digitChar (floorTimes (g O) 10)])
                (fun i => g (S i))) as [Hl Ha].
    + rewrite allDigits_app, Hd. unfold allDigits. cbn [forallb].
      now rewrite Hdig.
    + rewrite Hl, length_app. cbn [length]. split; [lia | exact Ha].
Qed.

Lemma generateCVV_digits (cardType : jsstring) (g : Rng) :
  length (fst (generateCVV cardType g)) = cvvLength cardType
  /\ allDigits (fst (generateCVV cardType g)) = true.
Proof.
  unfold generateCVV, cvvLength. cbv zeta.
  destruct (string_eqb cardType (str "American Express"));
    apply (cvvLoop_digits _ [] g eq_refl).
Qed.

(** A month from 1 to 12, printed and padded, is written with two
    digits. *)
Lemma month_twoDigits (k : Z) :
  1 <= k <= 12 ->
  padStart0 (toString (Num k)) 2 = twoDigits k
  /\ padStart0 (twoDigits k) 2 = twoDigits k.
Proof.
  intros H.
  assert (k = 1 \/ k = 2 \/ k = 3 \/ k = 4 \/ k = 5 \/ k = 6 \/ k = 7
          \/ k = 8 \/ k = 9 \/ k = 10 \/ k = 11 \/ k = 12) as Hk by lia.
  repeat (destruct Hk as [-> | Hk]; [split; reflexivity|]).
  subst k. split; reflexivity.
Qed.

(** [generateRandomExpiry] takes two draws: the year is from one to ten
    years ahead, the month from 1 to 12, and the branch that redraws the
    month is never taken. *)
Lemma generateRandomExpiry_eq (g : Rng) :
  let year := getFullYear now + floorTimes (g 0%nat) 10 + 1 in
  let month := floorTimes (g 1%nat) 12 + 1 in
  getFullYear now + 1 <= year <= getFullYear now + 10
  /\ 1 <= month <= 12
  /\ generateRandomExpiry now g
     = ({| Expiry.month := twoDigits month;
           Expiry.year := sliceLast (toString (Num year)) 2 |},
        fun i => g (S (S i))).
Proof.
  cbv zeta.
  pose proof (floorTimes_range (g 0%nat) 10 eq_refl) as Hy.
  pose proof (floorTimes_range (g 1%nat) 12 eq_refl) as Hm.
  split; [lia|]. split; [lia|].
  unfold generateRandomExpiry. cbv zeta.
  rewrite bind_eq, floorRandom_eq. cbn [fst snd].
  rewrite bind_eq, floorRandom_eq. cbn [fst snd].
  replace (getFullYear now + floorTimes (g 0%nat) 10 + 1 =? getFullYear now)
    with false by (symmetry; apply Z.eqb_neq; lia).
  cbn [andb]. rewrite bind_eq, ret_eq. rewrite ret_eq. cbn [fst snd].
  replace (12 <? floorTimes (g 1%nat) 12 + 1) with false
    by (symmetry; apply Z.ltb_ge; lia).
  rewrite (proj1 (month_twoDigits (floorTimes (g 1%nat) 12 + 1) ltac:(lia))).
  reflexivity.
Qed.

(** A month with a wildcard becomes a month from 01 to 12. *)
Lemma processMonth_wildcard (m : jsstring) (g : Rng) :
  hasWildcard m = true ->
  exists k, 1 <= k <= 12 /\ fst (processMonth m g) = twoDigits k.
Proof.
  intros Hw. unfold processMonth. rewrite Hw, bind_eq. cbv zeta.
  set (monthNum := parseInt (fst (fillWildcards m g))).
  destruct (isNaN monthNum || ltb monthNum (Num 1) || gtb monthNum (Num 12))%bool
    eqn:E.
  - rewrite bind_eq, bind_eq, floorRandom_eq, ret_eq. cbn [fst snd].
    rewrite ret_eq. cbn [fst].
    pose proof (floorTimes_range (snd (fillWildcards m g) 0%nat) 12 eq_refl).
    eexists. split; [|apply month_twoDigits]; lia.
  - rewrite bind_eq, ret_eq, ret_eq. cbn [fst].
    destruct monthNum as [|k]; [discriminate E|].
    cbn [isNaN orb] in E. apply orb_false_iff in E. destruct E as [E1 E2].
    unfold gtb, ltb in *. apply Z.ltb_ge in E1, E2.
    exists k. split; [lia|]. apply month_twoDigits. lia.
Qed.

End CvvExpiry.

(** X14. When the pattern gives no CVV, or one with a wildcard, the CVV
    of the record has four characters for an American Express card type
    and three for any other; when the pattern gives none, they are
    digits. *)
Theorem generateCreditCard_cvv_length (now : Clock) (pattern : jsstring)
    (g : Rng) :
  let parsed := parseInputPattern pattern in
  let card := fst (generateCreditCard now pattern g) in
  (forall v, Parsed.cvv parsed = Some v -> hasWildcard v = true) ->
  length (Card.cvv card)
  = (if string_eqb (Card.cardType card) (str "American Express")
     then 4%nat else 3%nat)
  /\ (Parsed.cvv parsed = None -> allDigits (Card.cvv card) = true).
Proof.
  cbv zeta. intros Hw. rewrite generateCreditCard_eq.
  cbn [fst Card.cvv Card.cardType]. unfold resolveCvv.
  set (cardType := detectCardType _). set (g2 := snd (resolveExpiry _ _ _)).
  fold (cvvLength cardType).
  destruct (Parsed.cvv (parseInputPattern pattern)) as [[|c v]|] eqn:Ecvv.
  - split; [apply generateCVV_digits | discriminate].
  - rewrite (Hw _ eq_refl), bind_eq. cbv zeta.
    split; [|discriminate].
    destruct (negb _ || _)%bool eqn:E; [apply generateCVV_digits|].
    rewrite ret_eq. cbn [fst]. apply orb_false_iff in E. destruct E as [E _].
    apply negb_false_iff, Nat.eqb_eq in E. exact E.
  - split; [apply generateCVV_digits | intros _; apply generateCVV_digits].
Qed.

Lemma generateCreditCard_cvv_length_witness :
  let card :=
    fst (generateCreditCard Sample.clock (str "3714|12|30|XXX") Sample.rng) in
  length (Card.cvv card)
  = (if string_eqb (Card.cardType card) (str "American Express")
     then 4%nat else 3%nat)
  /\ (Parsed.cvv (parseInputPattern (str "3714|12|30|XXX")) = None ->
      allDigits (Card.cvv card) = true).
Proof.
  apply (generateCreditCard_cvv_length Sample.clock (str "3714|12|30|XXX")
           Sample.rng).
  intros v E. vm_compute in E. injection E as <-. reflexivity.
Defined.

(** X15. A CVV given without wildcard is returned as it is, whatever its
    length and its characters. *)
Theorem generateCreditCard_literal_cvv (now : Clock) (pattern : jsstring)
    (g : Rng) (v : jsstring) :
  Parsed.cvv (parseInputPattern pattern) = Some v ->
  hasWildcard v = false ->
  Card.cvv (fst (generateCreditCard now pattern g)) = v.
Proof.
  intros Hv Hw. rewrite generateCreditCard_eq. cbn [fst Card.cvv].
  unfold resolveCvv. rewrite Hv.
  destruct v as [|c v].
  - unfold parseInputPattern in Hv. cbn [Parsed.cvv] in Hv.
    destruct (nth_error _ 3) as [[|? ?]|]; discriminate Hv.
  - now rewrite Hw, ret_eq.
Qed.

Lemma generateCreditCard_literal_cvv_witness :
  Card.cvv
    (fst (generateCreditCard Sample.clock (str "4111|12|30|12345678")
            Sample.rng))
  = str "12345678".
Proof.
  apply (generateCreditCard_literal_cvv Sample.clock
           (str "4111|12|30|12345678") Sample.rng (str "12345678"));
    reflexivity.
Defined.

(** X16. When the pattern lacks a month or a year, or gives a month with
    a wildcard, the month of the record is one of 01, 02, ..., 12. *)
Theorem generateCreditCard_month_range (now : Clock) (pattern : jsstring)
    (g : Rng) :
  let parsed := parseInputPattern pattern in
  Parsed.year parsed = None
  \/ (exists m, Parsed.month parsed = Some m /\ hasWildcard m = true) ->
  exists k, 1 <= k <= 12
            /\ Card.month (fst (generateCreditCard now pattern g))
               = twoDigits k.
Proof.
  cbv zeta. intros H. rewrite generateCreditCard_eq. cbn [fst Card.month].
  set (g1 := snd (resolveCardNumber _ g)).
  destruct (Parsed.year (parseInputPattern pattern)) as [y|] eqn:Hy.
  - destruct H as [H|(m & Hm & Hw)]; [discriminate H|].
    rewrite (resolveExpiry_both now _ m y g1 Hm
               (parsed_month_nonempty _ _ Hm) Hy
               (parsed_year_nonempty _ _ Hy)).
    cbv zeta. cbn [fst Expiry.month].
    destruct (processMonth_wildcard m g1 Hw) as (k & Hk & ->).
    exists k. split; [exact Hk|]. now apply month_twoDigits.
  - rewrite (resolveExpiry_partial now _ (or_intror Hy)).
    destruct (generateRandomExpiry_eq now g1) as (_ & Hm & ->).
    cbn [fst Expiry.month]. eauto.
Qed.

Lemma generateCreditCard_month_range_witness :
  exists k, 1 <= k <= 12
            /\ Card.month
                 (fst (generateCreditCard Sample.clock (str "4111|9X|30")
                         Sample.rng))
               = twoDigits k.
Proof.
  apply (generateCreditCard_month_range Sample.clock (str "4111|9X|30")
           Sample.rng).
  right. exists (str "9X"). split; reflexivity.
Defined.

(** X17. [generateRandomExpiry] uses exactly two draws: the year is the
    current year plus [Math.floor(r0 * 10) + 1], from one to ten years
    ahead, of which the last two characters are kept, and the month is
    [Math.floor(r1 * 12) + 1], from 01 to 12; the month is never drawn
    again. *)
Theorem generateRandomExpiry_two_draws (now : Clock) (g : Rng) :
  let year := getFullYear now + floorTimes (g 0%nat) 10 + 1 in
  let month := floorTimes (g 1%nat) 12 + 1 in
  getFullYear now + 1 <= year <= getFullYear now + 10
  /\ 1 <= month <= 12
  /\ generateRandomExpiry now g
     = ({| Expiry.month := twoDigits month;
           Expiry.year := sliceLast (toString (Num year)) 2 |},
        fun i => g (S (S i))).
Proof. exact (generateRandomExpiry_eq now g). Qed.

(** * Reading and printing years *)

Section Decimal.

Lemma zrange_forallb (P : Z -> bool) (lo n : Z) :
  forallb P (zrange lo n) = true ->
  forall z, lo <= z < lo + n -> P z = true.
Proof.
  intros H z Hz. rewrite forallb_forall in H. apply H.
  unfold zrange. apply in_map_iff. exists (Z.to_nat (z - lo)).
  split; [lia|]. apply in_seq. lia.
Qed.

Lemma radixValue_digit (c : char) :
  isDigit c = true -> radixValue 10 c = Some (digitValue c).
Proof.
  intros H. unfold radixValue. rewrite H.
  pose proof (digitValue_range c H).
  destruct (Z.ltb_spec (digitValue c) 10); [reflexivity | lia].
Qed.

Lemma readDigits_digits (s : jsstring) :
  allDigits s = true ->
  forall a, readDigits 10 s (Some a)
            = Some (fold_left (fun acc c => acc * 10 + digitValue c) s a).
Proof.
  induction s as [|c s IH]; intros Hs a; [reflexivity|].
  unfold allDigits in Hs. cbn [forallb] in Hs. apply andb_true_iff in Hs.
  destruct Hs as [Hc Hs]. cbn [readDigits fold_left].
  rewrite (radixValue_digit c Hc). now apply IH.
Qed.

(** [parseInt] of a string of digits is the number it writes. *)
Lemma parseInt_allDigits (s : jsstring) :
  allDigits s = true -> s <> [] -> parseInt s = Num (decimalValue s).
Proof.
  intros Hs Hne. destruct s as [|c t]; [congruence|].
  assert (allDigits t = true /\ isDigit c = true) as [Ht Hc].
  { unfold allDigits in *. cbn [forallb] in Hs.
    apply andb_true_iff in Hs. tauto. }
  assert (readDigits 10 (c :: t) None = Some (decimalValue (c :: t))) as Hr.
  { cbn [readDigits]. rewrite (radixValue_digit c Hc).
    rewrite (readDigits_digits t Ht). reflexivity. }
  assert (parseInt (c :: t)
          = match readDigits 10 (c :: t) None with
            | Some z => Num z
            | None => NaN
            end) as Hp.
  { pose proof Hc as Hrange. rewrite isDigit_range in Hrange.
    assert (c = 48 \/ c = 49 \/ c = 50 \/ c = 51 \/ c = 52 \/ c = 53
            \/ c = 54 \/ c = 55 \/ c = 56 \/ c = 57)%N as Hcases by lia.
    destruct Hcases as [->|Hcases].
    - unfold parseInt. cbn [skipWhiteSpace].
      change (isWhiteSpace 48) with false. cbv iota.
      change (N.eqb 48 45) with false. change (N.eqb 48 43) with false.
      cbv iota beta.
      destruct t as [|x t']; [reflexivity|].
      assert (isDigit x = true) as Hx.
      { unfold allDigits in Ht. cbn [forallb] in Ht.
        apply andb_true_iff in Ht. tauto. }
      rewrite isDigit_range in Hx.
      replace (N.eqb x 120 || N.eqb x 88)%bool with false.
      + cbv iota beta. destruct (readDigits 10 _ None); [|reflexivity].
        now rewrite Z.mul_1_l.
      + symmetry. apply orb_false_iff. split; apply N.eqb_neq; lia.
    - repeat (destruct Hcases as [->|Hcases];
              [unfold parseInt; cbn [skipWhiteSpace];
               match goal with
               | |- context [isWhiteSpace ?k] =>
                   change (isWhiteSpace k) with false
               end; cbv iota;
               match goal with
               | |- context [N.eqb ?k 45] =>
                   change (N.eqb k 45) with false;
                   change (N.eqb k 43) with false
               end; cbv iota beta;
               destruct (readDigits 10 _ None); [|reflexivity];
               now rewrite Z.mul_1_l|]).
      subst c. unfold parseInt. cbn [skipWhiteSpace].
      change (isWhiteSpace 57) with false. cbv iota.
      change (N.eqb 57 45) with false. change (N.eqb 57 43) with false.
      cbv iota beta. destruct (readDigits 10 _ None); [|reflexivity].
      now rewrite Z.mul_1_l. }
  rewrite Hp, Hr. reflexivity.
Qed.

(** Years of four digits, and the hundred years before them, print and
    read back; the last two characters of a year of four digits are its
    last two digits. *)
Lemma year_strings (z : Z) :
  900 <= z <= 9999 ->
  parseInt (toString (Num z)) = Num z
  /\ (1000 <= z ->
      length (toString (Num z)) = 4%nat
      /\ sliceLast (toString (Num z)) 2 = twoDigits (z mod 100)).
Proof.
  intros Hz.
  assert (forallb
            (fun z =>
               match parseInt (toString (Num z)) with
               | Num v => v =? z
               | NaN => false
               end
               && ((z <? 1000)
                   || (length (toString (Num z)) =? 4)%nat
                      && string_eqb (sliceLast (toString (Num z)) 2)
                           (twoDigits (z mod 100))))%bool
            (zrange 900 9100) = true) as H by (vm_compute; reflexivity).
  pose proof (zrange_forallb _ 900 9100 H z ltac:(lia)) as Hc.
  cbv beta in Hc. apply andb_true_iff in Hc. destruct Hc as [H1 H2].
  split.
  - destruct (parseInt (toString (Num z))) as [|v]; [discriminate H1|].
    apply Z.eqb_eq in H1. now subst v.
  - intros Hk. apply orb_true_iff in H2. destruct H2 as [H2|H2].
    + apply Z.ltb_lt in H2. lia.
    + apply andb_true_iff in H2. destruct H2 as [Hl Hs].
      apply Nat.eqb_eq in Hl. apply string_eqb_eq in Hs. auto.
Qed.

End Decimal.

(** * Wildcard years *)

Section WildcardYear.

Variable now : Clock.
Hypothesis clock_range : 1000 <= getFullYear now <= 9950.

Lemma yearField_toString (Y : Z) :
  1000 <= Y <= 9999 -> yearField (toString (Num Y)) = twoDigits (Y mod 100).
Proof.
  intros HY. destruct (year_strings Y ltac:(lia)) as [_ H].
  destruct (H ltac:(lia)) as [Hl Hs]. unfold yearField.
  now rewrite Hl, Hs.
Qed.

Lemma randomNearYear_eq (g : Rng) :
  exists Y, getFullYear now <= Y <= getFullYear now + 9
            /\ fst (randomNearYear now g) = toString (Num Y).
Proof.
  unfold randomNearYear. cbv zeta. rewrite bind_eq, floorRandom_eq, ret_eq.
  cbn [fst]. pose proof (floorTimes_range (g 0%nat) 10 eq_refl).
  eexists. split; [|reflexivity]. lia.
Qed.

Lemma randomNearYear_field (g : Rng) :
  exists Y, getFullYear now <= Y <= getFullYear now + 49
            /\ yearField (fst (randomNearYear now g)) = twoDigits (Y mod 100).
Proof.
  destruct (randomNearYear_eq g) as (Y & HY & ->).
  exists Y. split; [lia|]. apply yearField_toString. lia.
Qed.

(** Four digits: the last two characters are the last two digits of the
    number they write. *)
Lemma four_digits_field (f : jsstring) :
  allDigits f = true -> length f = 4%nat ->
  0 <= decimalValue f <= 9999
  /\ yearField f = twoDigits (decimalValue f mod 100).
Proof.
  intros Hd Hl.
  destruct f as [|a [|b [|c [|d [|? ?]]]]]; try discriminate Hl.
  unfold allDigits in Hd. cbn [forallb] in Hd.
  repeat (apply andb_true_iff in Hd; destruct Hd as [? Hd]).
  pose proof (digitValue_range a ltac:(assumption)).
  pose proof (digitValue_range b ltac:(assumption)).
  pose proof (digitValue_range c ltac:(assumption)).
  pose proof (digitValue_range d ltac:(assumption)).
  unfold decimalValue. cbn [fold_left]. split; [lia|].
  unfold yearField, sliceLast, twoDigits. cbn [length Nat.eqb Nat.sub skipn].
  replace ((((0 * 10 + digitValue a) * 10 + digitValue b) * 10
            + digitValue c) * 10 + digitValue d)
    with ((digitValue a * 10 + digitValue b) * 100
          + (digitValue c * 10 + digitValue d)) by lia.
  rewrite Z.add_comm, Z.mod_add by lia.
  rewrite (Z.mod_small (_ + _) 100) by lia.
  rewrite Z.add_comm, Z.mul_comm.
  replace ((digitValue d + 10 * digitValue c) / 10) with (digitValue c)
    by (symmetry; rewrite Z.add_comm, Z.mul_comm, Z.div_add_l by lia;
        rewrite Z.div_small by lia; lia).
  replace ((digitValue d + 10 * digitValue c) mod 10) with (digitValue d)
    by (symmetry; rewrite Z.mul_comm, Z.mod_add by lia;
        apply Z.mod_small; lia).
  now rewrite !digitChar_digitValue.
Qed.

(** Two digits write a number below 100. *)
Lemma two_digits_value (f : jsstring) :
  allDigits f = true -> length f = 2%nat -> 0 <= decimalValue f <= 99.
Proof.
  intros Hd Hl. destruct f as [|a [|b [|? ?]]]; try discriminate Hl.
  unfold allDigits in Hd. cbn [forallb] in Hd.
  repeat (apply andb_true_iff in Hd; destruct Hd as [? Hd]).
  pose proof (digitValue_range a ltac:(assumption)).
  pose proof (digitValue_range b ltac:(assumption)).
  unfold decimalValue. cbn [fold_left]. lia.
Qed.

(** A year with a wildcard, made of digits and wildcards, becomes the
    last two digits of a year from the current one to 49 years ahead. *)
Lemma processYear_wildcard (y : jsstring) (g : Rng) :
  hasWildcard y = true ->
  forallb (fun c => isDigit c || isWildcard c)%bool y = true ->
  exists Y, getFullYear now <= Y <= getFullYear now + 49
            /\ yearField (fst (processYear now y g)) = twoDigits (Y mod 100).
Proof.
  intros Hw Hy. unfold processYear. rewrite Hw, bind_eq. cbv zeta.
  pose proof (fillWildcards_digits y Hy g) as Hf.
  pose proof (fillWildcards_length y g) as Hlen.
  set (f := fst (fillWildcards y g)) in *.
  set (g1 := snd (fillWildcards y g)).
  set (cy := getFullYear now) in *.
  assert (cy / 100 * 100 <= cy < cy / 100 * 100 + 100 /\ 1000 <= cy / 100 * 100)
    as [Hcent Hcent'] by (Z.div_mod_to_equations; lia).
  set (century := cy / 100 * 100) in *.
  destruct (length f =? 2)%nat eqn:E2; [|destruct (length f =? 4)%nat eqn:E4].
  - apply Nat.eqb_eq in E2.
    pose proof (two_digits_value f Hf E2) as Hv.
    rewrite (parseInt_allDigits f Hf) by (destruct f; [discriminate|congruence]).
    unfold geb, leb. rewrite add_Num, add_Num.
    destruct (Z.leb_spec 0 (decimalValue f)); [|lia]. cbn [andb].
    destruct (Z.leb_spec (decimalValue f) 49).
    + destruct (year_strings (century + decimalValue f) ltac:(lia)) as [-> _].
      unfold ltb. destruct (Z.ltb_spec (century + decimalValue f) cy).
      * apply randomNearYear_field.
      * rewrite ret_eq. cbn [fst]. exists (century + decimalValue f).
        split; [lia|]. apply yearField_toString. lia.
    + destruct (year_strings (century - 100 + decimalValue f) ltac:(lia))
        as [-> _].
      unfold ltb. destruct (Z.ltb_spec (century - 100 + decimalValue f) cy);
        [|lia].
      apply randomNearYear_field.
  - apply Nat.eqb_eq in E4.
    destruct (four_digits_field f Hf E4) as [Hv Hfield].
    rewrite (parseInt_allDigits f Hf) by (destruct f; [discriminate|congruence]).
    cbn [isNaN orb]. unfold gtb, ltb.
    destruct (Z.ltb_spec (decimalValue f) cy); [apply randomNearYear_field|].
    destruct (Z.ltb_spec (cy + 20) (decimalValue f));
      [apply randomNearYear_field|].
    cbn [orb]. rewrite ret_eq. cbn [fst].
    exists (decimalValue f). split; [lia | exact Hfield].
  - apply randomNearYear_field.
Qed.

End WildcardYear.

(** X18. With a clock between the years 1000 and 9950, a pattern the
    page accepts, and a year that is missing or holds a wildcard, the year
    of the record is the last two digits of a year from the current one to
    49 years ahead: never a year that is over. *)
Theorem generateCreditCard_year_not_past (now : Clock) (pattern : jsstring)
    (g : Rng) :
  1000 <= getFullYear now <= 9950 ->
  fst (validatePattern pattern) = true ->
  (forall y, Parsed.year (parseInputPattern pattern) = Some y ->
             hasWildcard y = true) ->
  exists Y, getFullYear now <= Y <= getFullYear now + 49
            /\ Card.year (fst (generateCreditCard now pattern g))
               = twoDigits (Y mod 100).
Proof.
  intros Hclock Hv Hw. rewrite generateCreditCard_eq. cbn [fst Card.year].
  set (g1 := snd (resolveCardNumber _ g)).
  destruct (Parsed.year (parseInputPattern pattern)) as [y|] eqn:Hy.
  - destruct (Parsed.month (parseInputPattern pattern)) as [m|] eqn:Hm.
    + rewrite (resolveExpiry_both now _ m y g1 Hm
                 (parsed_month_nonempty _ _ Hm) Hy
                 (parsed_year_nonempty _ _ Hy)).
      cbv zeta. cbn [fst Expiry.year].
      apply (processYear_wildcard now Hclock y _ (Hw y eq_refl)).
      pose proof (validatePattern_segments pattern Hv) as Hs.
      rewrite Forall_forall in Hs. apply Hs.
      rewrite parseInputPattern_parseSpec in Hy. unfold parseSpec in Hy.
      cbn [Parsed.year] in Hy. apply nth_error_In in Hy. exact Hy.
    + destruct (parsed_positional pattern) as (_ & H & _).
      rewrite (H Hm) in Hy. discriminate Hy.
  - rewrite (resolveExpiry_partial now _ (or_intror Hy)).
    destruct (generateRandomExpiry_eq now g1) as (HY & _ & ->).
    cbn [fst Expiry.year].
    set (Y := getFullYear now + floorTimes (g1 0%nat) 10 + 1) in *.
    exists Y. split; [lia|].
    destruct (year_strings Y ltac:(lia)) as [_ H].
    now destruct (H ltac:(lia)).
Qed.

Lemma generateCreditCard_year_not_past_witness :
  exists Y, getFullYear Sample.clock <= Y <= getFullYear Sample.clock + 49
            /\ Card.year
                 (fst (generateCreditCard Sample.clock (str "4111|12|XX")
                         Sample.rng))
               = twoDigits (Y mod 100).
Proof.
  apply (generateCreditCard_year_not_past Sample.clock (str "4111|12|XX")
           Sample.rng).
  - vm_compute. split; discriminate.
  - reflexivity.
  - intros y E. vm_compute in E. injection E as <-. reflexivity.
Defined.

(** * More on the batch *)

Section BatchCards.

Variable now : Clock.
Variable pattern : jsstring.

(** The batch is the list of the records of successive calls. *)
Lemma generateMultipleCards_succ (k : nat) (g : Rng) :
  generateMultipleCards now pattern (S k) g
  = fst (generateCreditCard now pattern g)
      :: generateMultipleCards now pattern k
           (snd (generateCreditCard now pattern g)).
Proof.
  unfold generateMultipleCards.
  destruct (run_spec jsstring (callGenerate now) pattern (S k) g)
    as (_ & _ & -> & _).
  destruct (run_spec jsstring (callGenerate now) pattern k
              (snd (generateCreditCard now pattern g)))
    as (_ & _ & -> & _).
  cbn [Batch.outcomes]. unfold callGenerate at 1.
  destruct (generateCreditCard now pattern g) as [card g']. reflexivity.
Qed.




End BatchCards.

(** X19. A batch is the sequence of single generations: an empty batch
    is empty, and a batch of [k + 1] is the record of one call of
    [generateCreditCard] followed by the batch of [k] started from the
    random source that call left. *)
Theorem generateMultipleCards_sequence (now : Clock) (pattern : jsstring)
    (g : Rng) :
  generateMultipleCards now pattern 0 g = []
  /\ (forall k,
         generateMultipleCards now pattern (S k) g
         = fst (generateCreditCard now pattern g)
             :: generateMultipleCards now pattern k
                  (snd (generateCreditCard now pattern g))).
Proof.
  split; [reflexivity|]. intros k. apply generateMultipleCards_succ.
Qed.



(** * The exporter *)

Section ExportFacts.

Variable toLowerCase : jsstring -> jsstring.
Variable jsonStringify : Card.t -> jsstring.
Hypothesis lowers : lowersAscii toLowerCase.

Lemma string_eqb_neq (s t : jsstring) : string_eqb s t = false <-> s <> t.
Proof.
  rewrite <- string_eqb_eq. destruct (string_eqb s t); split; congruence.
Qed.

(** The formats that select the pipe layout or fall back to
    [card.formatted]. *)
Lemma exportCardData_pipe (card : Card.t) (format : jsstring) :
  isAscii format = true -> map lowerAscii format = str "pipe" ->
  exportCardData toLowerCase jsonStringify card format
  = Card.cardNumber card ++ str "|" ++ Card.month card ++ str "|"
      ++ Card.year card ++ str "|" ++ Card.cvv card.
Proof.
  intros Ha Hs. unfold exportCardData. cbv zeta.
  rewrite (lowers format Ha), Hs. reflexivity.
Qed.

Lemma exportCardData_default (card : Card.t) (format : jsstring) :
  isAscii format = true ->
  map lowerAscii format <> str "pipe" ->
  map lowerAscii format <> str "json" ->
  map lowerAscii format <> str "csv" ->
  map lowerAscii format <> str "formatted" ->
  exportCardData toLowerCase jsonStringify card format = Card.formatted card.
Proof.
  intros Ha H1 H2 H3 H4. unfold exportCardData. cbv zeta.
  rewrite (lowers format Ha).
  apply string_eqb_neq in H1, H2, H3, H4. now rewrite H1, H2, H3, H4.
Qed.

Lemma digit_isDot (c : char) : isDigit c = true -> isDot c = true.
Proof.
  rewrite isDigit_range. intros H. unfold isDot.
  apply negb_true_iff, orb_false_iff. split; [|apply N.eqb_neq; lia].
  apply orb_false_iff. split; [|apply N.eqb_neq; lia].
  apply orb_false_iff. split; apply N.eqb_neq; lia.
Qed.

Lemma digit_not_space (c : char) :
  isDigit c = true -> isWhiteSpace c = false.
Proof.
  rewrite isDigit_range. intros H.
  assert (c = 48 \/ c = 49 \/ c = 50 \/ c = 51 \/ c = 52 \/ c = 53
          \/ c = 54 \/ c = 55 \/ c = 56 \/ c = 57)%N as Hc by lia.
  repeat (destruct Hc as [-> | Hc]; [reflexivity|]). subst c. reflexivity.
Qed.

(** Sixteen digits, grouped and trimmed. *)
Lemma group_sixteen (n : jsstring) :
  allDigits n = true -> length n = 16%nat ->
  trim (groupFours n)
  = firstn 4 n ++ str " " ++ firstn 4 (skipn 4 n) ++ str " "
      ++ firstn 4 (skipn 8 n) ++ str " " ++ skipn 12 n.
Proof.
  intros Hd Hl.
  do 16 (destruct n as [|? n]; [discriminate Hl|]).
  destruct n; [|discriminate Hl].
  unfold allDigits in Hd. cbn [forallb] in Hd.
  repeat (apply andb_true_iff in Hd; destruct Hd as [? Hd]).
  cbn [groupFours].
  repeat match goal with
         | H : isDigit ?c = true |- _ =>
             rewrite (digit_isDot c H); revert H
         end.
  intros. cbn [andb]. unfold trim. cbn [skipWhiteSpace].
  repeat match goal with
         | H : isDigit ?c = true |- context [isWhiteSpace ?c] =>
             rewrite (digit_not_space c H)
         end.
  cbn [rev app skipWhiteSpace].
  change (isWhiteSpace 32) with true. cbv iota.
  repeat match goal with
         | H : isDigit ?c = true |- context [isWhiteSpace ?c] =>
             rewrite (digit_not_space c H)
         end.
  reflexivity.
Qed.

(** A field without the separator, followed by the separator, is the
    first piece of the cut. *)
Lemma splitOn_field (sep : char) (f rest : jsstring) :
  forallb (fun c => negb (char_eqb c sep)) f = true ->
  splitOn sep (f ++ sep :: rest) = f :: splitOn sep rest.
Proof.
  induction f as [|c f IH]; intros Hf.
  - cbn [app splitOn]. unfold char_eqb. now rewrite N.eqb_refl.
  - cbn [forallb] in Hf. apply andb_true_iff in Hf. destruct Hf as [Hc Hf].
    apply negb_true_iff in Hc. cbn [app splitOn]. rewrite Hc, (IH Hf).
    reflexivity.
Qed.

Lemma splitOn_last (sep : char) (f : jsstring) :
  forallb (fun c => negb (char_eqb c sep)) f = true ->
  splitOn sep f = [f].
Proof.
  induction f as [|c f IH]; intros Hf; [reflexivity|].
  cbn [forallb] in Hf. apply andb_true_iff in Hf. destruct Hf as [Hc Hf].
  apply negb_true_iff in Hc. cbn [splitOn]. rewrite Hc, (IH Hf).
  reflexivity.
Qed.

End ExportFacts.

(** X21. For a record made by [generateCreditCard], the pipe export, in
    any spelling of [pipe] with ASCII capitals, and the export in a format
    that is none of the four known ones are both the [formatted] field of
    the record. *)
Theorem exportCardData_generated_pipe
    (toLowerCase : jsstring -> jsstring) (jsonStringify : Card.t -> jsstring)
    (now : Clock) (pattern : jsstring) (g : Rng) (format : jsstring) :
  lowersAscii toLowerCase ->
  isAscii format = true ->
  map lowerAscii format <> str "json" ->
  map lowerAscii format <> str "csv" ->
  map lowerAscii format <> str "formatted" ->
  let card := fst (generateCreditCard now pattern g) in
  exportCardData toLowerCase jsonStringify card format = Card.formatted card.
Proof.
  intros Hl Ha H2 H3 H4 card.
  destruct (string_eqb (map lowerAscii format) (str "pipe")) eqn:E.
  - apply string_eqb_eq in E.
    rewrite (exportCardData_pipe toLowerCase jsonStringify Hl card format Ha E).
    unfold card. rewrite generateCreditCard_eq. reflexivity.
  - apply string_eqb_neq in E.
    now apply exportCardData_default.
Qed.

Lemma exportCardData_generated_pipe_witness :
  let card :=
    fst (generateCreditCard Sample.clock (str "4532|12|30|123") Sample.rng) in
  exportCardData (map lowerAscii) (fun _ => []) card (str "Pipe")
  = Card.formatted card.
Proof.
  apply (exportCardData_generated_pipe (map lowerAscii) (fun _ => [])
           Sample.clock (str "4532|12|30|123") Sample.rng (str "Pipe"));
    [intros s _; reflexivity | reflexivity | discriminate | discriminate
     | discriminate].
Defined.

(** X22. The [formatted] export of a record whose card number has
    sixteen digits writes the number in four groups of four digits
    separated by one space, without a space at either end, followed by a
    space, the month, a slash, the year, a space and the CVV. *)
Theorem exportCardData_formatted_groups
    (toLowerCase : jsstring -> jsstring) (jsonStringify : Card.t -> jsstring)
    (card : Card.t) (format : jsstring) :
  lowersAscii toLowerCase ->
  isAscii format = true -> map lowerAscii format = str "formatted" ->
  allDigits (Card.cardNumber card) = true ->
  length (Card.cardNumber card) = 16%nat ->
  let n := Card.cardNumber card in
  exportCardData toLowerCase jsonStringify card format
  = firstn 4 n ++ str " " ++ firstn 4 (skipn 4 n) ++ str " "
      ++ firstn 4 (skipn 8 n) ++ str " " ++ skipn 12 n ++ str " "
      ++ Card.month card ++ str "/" ++ Card.year card ++ str " "
      ++ Card.cvv card.
Proof.
  intros Hl Ha Hs Hd Hlen n. unfold exportCardData. cbv zeta.
  rewrite (Hl format Ha), Hs.
  change (string_eqb (str "formatted") (str "pipe")) with false.
  change (string_eqb (str "formatted") (str "json")) with false.
  change (string_eqb (str "formatted") (str "csv")) with false.
  change (string_eqb (str "formatted") (str "formatted")) with true.
  cbv iota. rewrite (group_sixteen _ Hd Hlen). fold n.
  now rewrite <- !app_assoc.
Qed.

Lemma exportCardData_formatted_groups_witness :
  let card :=
    fst (generateCreditCard Sample.clock (str "4111111111111111|12|30|123")
           Sample.rng) in
  exportCardData (map lowerAscii) (fun _ => []) card (str "FORMATTED")
  = str "4111 1111 1111 1111 12/30 123".
Proof.
  apply (exportCardData_formatted_groups (map lowerAscii) (fun _ => [])
           (fst (generateCreditCard Sample.clock
                   (str "4111111111111111|12|30|123") Sample.rng))
           (str "FORMATTED"));
    [intros s _; reflexivity | reflexivity | reflexivity | reflexivity
     | reflexivity].
Defined.

(** X23. Cutting the [csv] export of a record at its commas gives back
    the five fields, card number, month, year, CVV and card type, when
    none of them holds a comma. *)
Theorem exportCardData_csv_fields
    (toLowerCase : jsstring -> jsstring) (jsonStringify : Card.t -> jsstring)
    (card : Card.t) (format : jsstring) :
  lowersAscii toLowerCase ->
  isAscii format = true -> map lowerAscii format = str "csv" ->
  forallb (fun f => forallb (fun c => negb (char_eqb c 44%N)) f)
    [Card.cardNumber card; Card.month card; Card.year card; Card.cvv card;
     Card.cardType card] = true ->
  splitOn 44%N (exportCardData toLowerCase jsonStringify card format)
  = [Card.cardNumber card; Card.month card; Card.year card; Card.cvv card;
     Card.cardType card].
Proof.
  intros Hl Ha Hs Hf. unfold exportCardData. cbv zeta.
  rewrite (Hl format Ha), Hs.
  change (string_eqb (str "csv") (str "pipe")) with false.
  change (string_eqb (str "csv") (str "json")) with false.
  change (string_eqb (str "csv") (str "csv")) with true.
  cbv iota. cbn [forallb] in Hf.
  repeat (apply andb_true_iff in Hf; destruct Hf as [? Hf]).
  change (str ",") with [44%N]. cbn [app].
  rewrite !splitOn_field by assumption.
  rewrite splitOn_last by assumption. reflexivity.
Qed.

Lemma exportCardData_csv_fields_witness :
  let card :=
    fst (generateCreditCard Sample.clock (str "4111111111111111|12|30|123")
           Sample.rng) in
  splitOn 44%N (exportCardData (map lowerAscii) (fun _ => []) card (str "csv"))
  = [Card.cardNumber card; Card.month card; Card.year card; Card.cvv card;
     Card.cardType card].
Proof.
  apply (exportCardData_csv_fields (map lowerAscii) (fun _ => [])
           (fst (generateCreditCard Sample.clock
                   (str "4111111111111111|12|30|123") Sample.rng))
           (str "csv"));
    [intros s _; reflexivity | reflexivity | reflexivity | reflexivity].
Defined.

(** * The check of the page *)

Section PatternCheck.

Lemma skipWhiteSpace_nil (s : jsstring) :
  skipWhiteSpace s = [] <-> forallb isWhiteSpace s = true.
Proof.
  induction s as [|c s IH]; [split; reflexivity|].
  cbn [skipWhiteSpace forallb]. destruct (isWhiteSpace c).
  - exact IH.
  - split; discriminate.
Qed.

Lemma skipWhiteSpace_head (s : jsstring) (c : char) (t : jsstring) :
  skipWhiteSpace s = c :: t -> isWhiteSpace c = false.
Proof.
  induction s as [|a s IH]; [discriminate|].
  cbn [skipWhiteSpace]. destruct (isWhiteSpace a) eqn:E; [exact IH|].
  intros [= <- _]. exact E.
Qed.

(** Only a string of white space trims to the empty string. *)
Lemma trim_nil (s : jsstring) :
  trim s = [] <-> forallb isWhiteSpace s = true.
Proof.
  unfold trim. split.
  - intros H. apply (f_equal (@rev _)) in H. rewrite rev_involutive in H.
    cbn [rev] in H. apply skipWhiteSpace_nil in H.
    destruct (skipWhiteSpace s) as [|c t] eqn:E;
      [now apply skipWhiteSpace_nil|].
    apply skipWhiteSpace_head in E.
    rewrite forallb_forall in H. specialize (H c).
    rewrite H in E; [discriminate E|]. apply -> in_rev. now left.
  - intros H. apply skipWhiteSpace_nil in H. rewrite H. reflexivity.
Qed.

End PatternCheck.

(** X24. [validatePattern] has three outcomes: a string of white space
    only, the empty string among them, is refused with the message that
    the pattern cannot be empty; a string with a character outside the
    class [[0-9\*XxQ#_?\|\-\/:\s]] is refused with the message on invalid
    characters; any other string is accepted, with an empty message. *)
Theorem validatePattern_outcomes (pattern : jsstring) :
  (forallb isWhiteSpace pattern = true ->
   validatePattern pattern = (false, str "Pattern cannot be empty"))
  /\ (forallb isWhiteSpace pattern = false ->
      forallb isPatternChar pattern = false ->
      validatePattern pattern
      = (false,
         str "Invalid characters in pattern. Use only digits and wildcards: *, X, x, ?, #, _"))
  /\ (forallb isWhiteSpace pattern = false ->
      forallb isPatternChar pattern = true ->
      validatePattern pattern = (true, [])).
Proof.
  unfold validatePattern. repeat split.
  - intros H. apply trim_nil in H. now rewrite H.
  - intros Hw Hc. destruct (trim pattern) eqn:E.
    + apply trim_nil in E. congruence.
    + now rewrite Hc, andb_false_r.
  - intros Hw Hc. destruct (trim pattern) eqn:E.
    + apply trim_nil in E. congruence.
    + rewrite Hc, andb_true_r. unfold nonEmpty.
      destruct pattern; [discriminate Hw | reflexivity].
Qed.

Lemma validatePattern_outcomes_witness :
  validatePattern (str "45a2") 
  = (false,
     str "Invalid characters in pattern. Use only digits and wildcards: *, X, x, ?, #, _").
Proof.
  apply (proj1 (proj2 (validatePattern_outcomes (str "45a2"))));
    reflexivity.
Defined.

(** * A literal month with the letter Q *)

(** C10. The month [Q9] and the year [26] hold none of the six documented
    wildcard characters, so the month should come out as it is; the class
    of the source holds the letter [Q] as well, and with every clock and
    every random source the month of the record is one of 01 to 12, never
    [Q9]. *)
Theorem generateCreditCard_month_Q9 (now : Clock) (g : Rng) :
  let pattern := str "4111111111111111|Q9|26" in
  let card := fst (generateCreditCard now pattern g) in
  Parsed.month (parseInputPattern pattern) = Some (str "Q9")
  /\ Parsed.year (parseInputPattern pattern) = Some (str "26")
  /\ existsb documentedWildcard (str "Q9") = false
  /\ existsb documentedWildcard (str "26") = false
  /\ (exists k, 1 <= k <= 12 /\ Card.month card = twoDigits k)
  /\ Card.month card <> padStart0 (str "Q9") 2.
Proof.
  cbv zeta.
  assert (exists k,
             1 <= k <= 12
             /\ Card.month
                  (fst (generateCreditCard now
                          (str "4111111111111111|Q9|26") g))
                = twoDigits k) as H.
  { rewrite generateCreditCard_eq. cbn [fst Card.month].
    rewrite (resolveExpiry_both now
               (parseInputPattern (str "4111111111111111|Q9|26"))
               (str "Q9") (str "26") _ eq_refl
               ltac:(discriminate) eq_refl ltac:(discriminate)).
    cbv zeta. cbn [fst Expiry.month].
    destruct (processMonth_wildcard (str "Q9")
                (snd (resolveCardNumber
                        (Parsed.bin
                           (parseInputPattern
                              (str "4111111111111111|Q9|26"))) g))
                eq_refl) as (k & Hk & ->).
    exists k. split; [exact Hk|]. now apply month_twoDigits. }
  repeat split; try reflexivity; [exact H|].
  destruct H as (k & Hk & ->). unfold twoDigits.
  intros E. injection E as E _.
  assert (0 <= k / 10 <= 1) by (Z.div_mod_to_equations; lia).
  unfold digitChar in E. lia.
Qed.
